(** * xKit, [examples/sentiment-analysis.py]: a shallow embedding

    The script reads an exported bookmark document, scores the text of every
    bookmark against two word lists and writes the document back with a
    [customAnalysis] annotation per bookmark and a tally in [metadata].

    Layout of this file:
    - Python values, exceptions and the few built-ins the script calls;
    - binary64 arithmetic ([/] on ints, [round(x, 2)], float comparison),
      taken from the Standard Library's [SpecFloat];
    - [re.findall(r'\b\w+\b', s)] as a backtracking matcher;
    - [analyze_sentiment] and [main];
    - the properties. *)

From stdpp Require Import gmap strings list fin_maps.
From Stdlib Require Import ZArith SpecFloat Lia.

#[local] Set Warnings "-register-all".
#[local] Open Scope Z_scope.

(** ** Python strings

    A [str] is a sequence of Unicode code points. *)

Abbreviation codepoint := N.
Abbreviation pystr := (list N).

(** A source-code literal, read character by character. *)
Definition str (s : string) : pystr :=
  Ascii.N_of_ascii <$> String.list_ascii_of_string s.
Arguments str : simpl never.

(** What the interpreter looks up in the Unicode character database, which is
    not part of the script: [str.lower] and the class [\w] of [re] on [str]
    patterns. *)
Class UnicodeDB := {
  str_lower : pystr → pystr;
  is_word_char : codepoint → bool;
  str_lower_empty : str_lower [] = []
}.

(** ** Exceptions and results *)

Inductive exn :=
  | JSONDecodeError
  | AttributeError
  | TypeError
  | ZeroDivisionError
  | OverflowError.

Inductive result (A : Type) :=
  | Ok (a : A)
  | Raise (e : exn).
Arguments Ok {A} a.
Arguments Raise {A} e.

#[global] Instance result_ret : MRet result := @Ok.
#[global] Instance result_bind : MBind result := λ A B f m,
  match m with
  | Ok a => f a
  | Raise e => Raise e
  end.

(** ** Floats: IEEE 754 binary64 *)

Abbreviation float := spec_float.

Definition prec : Z := 53.
Definition emax : Z := 1024.

(** An integer as an exact (unnormalised) binary number. *)
Definition float_of_int (n : Z) : float :=
  match n with
  | Z0 => S754_zero false
  | Zpos p => S754_finite false p 0
  | Zneg p => S754_finite true p 0
  end.

(** The double nearest to [a / b]. *)
Definition nearest_quot (a b : Z) : float :=
  SFdiv prec emax (float_of_int a) (float_of_int b).

(** [a / b] on ints: the correctly rounded quotient, [ZeroDivisionError] for a
    zero divisor, [OverflowError] when the quotient is out of range. *)
Definition py_truediv (a b : Z) : result float :=
  if decide (b = 0) then Raise ZeroDivisionError
  else match nearest_quot a b with
       | S754_infinity _ => Raise OverflowError
       | q => Ok q
       end.

(** A decimal literal [h / 10^k], such as [0.2] = [decimal 2 1]. *)
Definition decimal (h k : Z) : float := nearest_quot h (10 ^ k).

(** [a / b] rounded to the nearest integer, ties to the even one ([0 < b]). *)
Definition round_half_even (a b : Z) : Z :=
  let q := a / b in
  match 2 * (a mod b) ?= b with
  | Lt => q
  | Eq => if Z.even q then q else q + 1
  | Gt => q + 1
  end.

(** The magnitude of a finite double [m * 2^e] in units of [10^-ndigits],
    rounded half to even on the exact binary value. *)
Definition round_units (m : positive) (e : Z) (ndigits : Z) : Z :=
  match e with
  | Zneg _ => round_half_even (Zpos m * 10 ^ ndigits) (2 ^ (- e))
  | _ => Zpos m * 2 ^ e * 10 ^ ndigits
  end.

(** The double nearest to [h / 10^k] with sign [s]; a zero keeps the sign. *)
Definition signed_decimal (s : bool) (h k : Z) : float :=
  match h with
  | Zpos p => SFdiv prec emax (S754_finite s p 0) (float_of_int (10 ^ k))
  | _ => S754_zero s
  end.

(** [round(x, ndigits)] for [0 <= ndigits]: the decimal nearest to the exact
    value of [x], converted back to the nearest double; zeros, infinities and
    NaN round to themselves. *)
Definition py_round (x : float) (ndigits : Z) : float :=
  match x with
  | S754_finite s m e => signed_decimal s (round_units m e ndigits) ndigits
  | _ => x
  end.

(** [x < y] on floats. *)
Definition float_lt (x y : float) : bool := SFltb x y.
Definition float_le (x y : float) : bool := SFleb x y.
Definition float_neg (x : float) : float := SFopp x.

(** The score as an interval check: [-1.0 <= x <= 1.0]. *)
Definition in_unit_interval (x : float) : bool :=
  float_le (float_neg (decimal 1 0)) x && float_le x (decimal 1 0).

(** ** Python values, as [json.loads] builds them *)

Inductive pyval :=
  | PNone
  | PBool (b : bool)
  | PInt (n : Z)
  | PFloat (x : float)
  | PStr (s : pystr)
  | PList (l : list pyval)
  | PDict (d : gmap pystr pyval).

(** Truth value of an object, as [not x] tests it. *)
Definition truthy (v : pyval) : bool :=
  match v with
  | PNone => false
  | PBool b => b
  | PInt n => negb (n =? 0)
  | PFloat (S754_zero _) => false
  | PFloat _ => true
  | PStr s => negb (bool_decide (s = []))
  | PList l => negb (Nat.eqb (length l) 0)
  | PDict d => negb (Nat.eqb (size d) 0)
  end.

(** [x.get(key, fallback)]: only a dict has the method. *)
Definition py_get (x : pyval) (key : pystr) (fallback : pyval) : result pyval :=
  match x with
  | PDict d => Ok (default fallback (d !! key))
  | _ => Raise AttributeError
  end.

(** [x.lower()]: only a str has the method. *)
Definition py_lower `{UnicodeDB} (x : pyval) : result pystr :=
  match x with
  | PStr s => Ok (str_lower s)
  | _ => Raise AttributeError
  end.

(** [**x] inside a dict display: [x] must be a mapping. *)
Definition py_mapping (x : pyval) : result (gmap pystr pyval) :=
  match x with
  | PDict d => Ok d
  | _ => Raise TypeError
  end.

(** The items [for b in x] visits: the elements of a list, the characters of a
    str, the keys of a dict; anything else is not iterable.  (A dict yields
    its keys in insertion order, which a [gmap] does not record; the script
    fails on the first key whichever it is.) *)
Definition py_iter (x : pyval) : result (list pyval) :=
  match x with
  | PList l => Ok l
  | PStr s => Ok ((λ c, PStr [c]) <$> s)
  | PDict d => Ok ((λ kv, PStr kv.1) <$> map_to_list d)
  | _ => Raise TypeError
  end.

(** ** [re.findall(r'\b\w+\b', s)] *)

Section Findall.
Context `{UnicodeDB}.

Definition is_word (c : option codepoint) : bool :=
  from_option is_word_char false c.

(** [\b] between two neighbouring positions ([None] outside the string). *)
Definition word_boundary (before after : option codepoint) : bool :=
  xorb (is_word before) (is_word after).

(** [\w+\b] once a first [\w] has consumed [c]: the greedy [+] takes one more
    character when it can and gives it back when the rest fails. *)
Fixpoint match_word_rest (c : codepoint) (s : pystr) : option (pystr * pystr) :=
  let stop := if word_boundary (Some c) (head s) then Some ([c], s) else None in
  match s with
  | c' :: s' =>
      if is_word_char c' then
        match match_word_rest c' s' with
        | Some (w, rest) => Some (c :: w, rest)
        | None => stop
        end
      else stop
  | [] => stop
  end.

(** [\b\w+\b] at one position: the match and what follows it. *)
Definition match_word (before : option codepoint) (s : pystr) : option (pystr * pystr) :=
  match s with
  | c :: s' =>
      if word_boundary before (Some c) && is_word_char c
      then match_word_rest c s' else None
  | [] => None
  end.

(** The scan of [findall]: after a match, go on behind it; otherwise move
    one character to the right. *)
Fixpoint findall_from (fuel : nat) (before : option codepoint) (s : pystr) : list pystr :=
  match fuel with
  | O => []
  | S fuel' =>
      match match_word before s with
      | Some (w, rest) => w :: findall_from fuel' (last w) rest
      | None =>
          match s with
          | c :: s' => findall_from fuel' (Some c) s'
          | [] => []
          end
      end
  end.

Definition findall_words (s : pystr) : list pystr :=
  findall_from (S (length s)) None s.

(** The specification's tokens: the maximal runs of word characters, from
    left to right.  [run] is the run being read. *)
Definition close_run (run : pystr) : list pystr :=
  match run with
  | [] => []
  | _ => [run]
  end.

Fixpoint runs_from (run : pystr) (s : pystr) : list pystr :=
  match s with
  | [] => close_run run
  | c :: s' =>
      if is_word_char c then runs_from (run ++ [c]) s'
      else close_run run ++ runs_from [] s'
  end.

Definition maximal_runs (s : pystr) : list pystr := runs_from [] s.

(** [s] starts with the run [w] of word characters, and [rest], which
    does not start with one, follows it. *)
Definition splits_run (s w rest : pystr) : Prop :=
  s = w ++ rest ∧ Forall (λ c, is_word_char c = true) w ∧ is_word (head rest) = false.
End Findall.

(** ** The lexicons *)

Definition POSITIVE_WORDS : gset pystr :=
  list_to_set (str <$> [
    "good"; "great"; "excellent"; "amazing"; "awesome"; "fantastic"; "wonderful";
    "love"; "best"; "perfect"; "brilliant"; "outstanding"; "superb"; "incredible";
    "helpful"; "useful"; "valuable"; "important"; "interesting"; "insightful"
  ]%string).

Definition NEGATIVE_WORDS : gset pystr :=
  list_to_set (str <$> [
    "bad"; "terrible"; "awful"; "horrible"; "worst"; "poor"; "disappointing";
    "hate"; "useless"; "broken"; "failed"; "error"; "problem"; "issue"; "bug";
    "difficult"; "confusing"; "complicated"; "frustrating"; "annoying"
  ]%string).

(** ** [analyze_sentiment] *)

Inductive label := Positive | Negative | Neutral.

#[global] Instance label_eq_dec : EqDecision label.
Proof. solve_decision. Defined.

Definition label_str (l : label) : pystr :=
  match l with
  | Positive => str "positive"
  | Negative => str "negative"
  | Neutral => str "neutral"
  end.

(** [sum(1 for word in words if word in lexicon)] *)
Definition count_in (lexicon : gset pystr) (words : list pystr) : Z :=
  Z.of_nat (length (filter (λ word, word ∈ lexicon) words)).

(** The [if score > 0.2 ... elif score < -0.2 ... else] ladder. *)
Definition label_of_score (score : float) : label :=
  if float_lt (decimal 2 1) score then Positive
  else if float_lt score (float_neg (decimal 2 1)) then Negative
  else Neutral.

Section Scorer.
Context `{UnicodeDB}.

(** The words of a text: [re.findall(r'\b\w+\b', text.lower())]. *)
Definition words_of (text : pystr) : list pystr :=
  findall_words (str_lower text).

Definition positive_count (text : pystr) : Z := count_in POSITIVE_WORDS (words_of text).
Definition negative_count (text : pystr) : Z := count_in NEGATIVE_WORDS (words_of text).

Definition analyze_sentiment (text : pyval) : result (label * float) :=
  if negb (truthy text) then Ok (Neutral, S754_zero false)
  else
    text_lower ← py_lower text;
    let words := findall_words text_lower in
    let positive_count := count_in POSITIVE_WORDS words in
    let negative_count := count_in NEGATIVE_WORDS words in
    let total_sentiment_words := positive_count + negative_count in
    if decide (total_sentiment_words = 0) then Ok (Neutral, S754_zero false)
    else
      score ← py_truediv (positive_count - negative_count) total_sentiment_words;
      Ok (label_of_score score, py_round score 2).
End Scorer.

(** ** [main] *)

(** What [sys.stdin.read()] returns, seen through [json.loads]: a text that
    [json.loads] rejects, or the document it parses to.  Parsing itself and
    the layout [json.dumps] gives the printed document are the library's;
    whatever [json.loads] raises on a rejected text is recorded as
    [JSONDecodeError]. *)
Inductive input :=
  | Malformed
  | Document (v : pyval).

Definition json_loads (input_data : input) : result pyval :=
  match input_data with
  | Malformed => Raise JSONDecodeError
  | Document v => Ok v
  end.

(** [sentiment_counts]: one counter per label; [bump] is [counts[l] += 1]. *)
Definition bump (l : label) (counts : label → Z) : label → Z :=
  λ l', if decide (l' = l) then counts l' + 1 else counts l'.

Definition no_counts : label → Z := λ _, 0.

Section Pipeline.
Context `{UnicodeDB}.

(** The dict display that builds [enriched_bookmark]. *)
Definition enriched (bookmark : pyval) (sentiment : label) (score : float) : result pyval :=
  fields ← py_mapping bookmark;
  custom ← py_get bookmark (str "customAnalysis") (PDict ∅);
  analysis ← py_mapping custom;
  Ok (PDict (<[str "customAnalysis" :=
                 PDict (<[str "sentimentScore" := PFloat score]>
                        (<[str "sentiment" := PStr (label_str sentiment)]> analysis))]>
             fields)).

(** The [for bookmark in bookmarks] loop, with its two accumulators. *)
Fixpoint enrich_loop (bookmarks : list pyval)
    (enriched_bookmarks : list pyval) (sentiment_counts : label → Z)
    : result (list pyval * (label → Z)) :=
  match bookmarks with
  | [] => Ok (enriched_bookmarks, sentiment_counts)
  | bookmark :: rest =>
      text ← py_get bookmark (str "text") (PStr []);
      '(sentiment, score) ← analyze_sentiment text;
      let sentiment_counts := bump sentiment sentiment_counts in
      enriched_bookmark ← enriched bookmark sentiment score;
      enrich_loop rest (enriched_bookmarks ++ [enriched_bookmark]) sentiment_counts
  end.

(** The (label, score) the loop computes for a bookmark. *)
Definition scored (bookmark : pyval) : result (label * float) :=
  text ← py_get bookmark (str "text") (PStr []);
  analyze_sentiment text.

(** The label the loop counts for a bookmark. *)
Definition sentiment_of (bookmark : pyval) : result label :=
  '(sentiment, _) ← scored bookmark; Ok sentiment.

(** One pass through the loop body: the label counted and the bookmark
    appended. *)
Definition enrich_one (bookmark : pyval) : result (label * pyval) :=
  text ← py_get bookmark (str "text") (PStr []);
  '(sentiment, score) ← analyze_sentiment text;
  enriched_bookmark ← enriched bookmark sentiment score;
  Ok (sentiment, enriched_bookmark).

Definition tally (sentiment_counts : label → Z) : pyval :=
  PDict (<[str "neutral" := PInt (sentiment_counts Neutral)]>
         (<[str "negative" := PInt (sentiment_counts Negative)]>
          (<[str "positive" := PInt (sentiment_counts Positive)]> ∅))).

(** The body of the [try]. *)
Definition transform (input_data : input) : result pyval :=
  export_data ← json_loads input_data;
  bookmarks ← py_get export_data (str "bookmarks") (PList []);
  items ← py_iter bookmarks;
  '(enriched_bookmarks, sentiment_counts) ← enrich_loop items [] no_counts;
  top ← py_mapping export_data;
  metadata ← py_get export_data (str "metadata") (PDict ∅);
  meta ← py_mapping metadata;
  Ok (PDict (<[str "metadata" :=
                 PDict (<[str "sentimentAnalysis" := tally sentiment_counts]> meta)]>
             (<[str "bookmarks" := PList enriched_bookmarks]> top))).

(** What a run leaves behind: the documents printed on standard output, the
    errors reported on standard error, and the exit status. *)
Record outcome := {
  stdout : list pyval;
  stderr : list exn;
  exit_status : Z
}.

(** [json.dumps] and [print] are taken to succeed on the document built: the
    recursion limit of the encoder and errors of the output stream are
    outside the model, so [transform] is what the code computes up to the
    call of [json.dumps]. *)
Definition main (input_data : input) : outcome :=
  match transform input_data with
  | Ok output => {| stdout := [output]; stderr := []; exit_status := 0 |}
  | Raise error => {| stdout := []; stderr := [error]; exit_status := 1 |}
  end.
End Pipeline.

(** ** ASCII text

    On text made of ASCII characters [str.lower] shifts [A-Z] to [a-z] and
    [\w] is [[A-Za-z0-9_]]; the examples below are run with these tables. *)

Definition ascii_lower_char (c : codepoint) : codepoint :=
  if ((65 <=? c) && (c <=? 90))%N then (c + 32)%N else c.

Definition ascii_word_char (c : codepoint) : bool :=
  (((48 <=? c) && (c <=? 57)) || ((65 <=? c) && (c <=? 90))
   || ((97 <=? c) && (c <=? 122)) || (c =? 95))%N.

Definition ascii_db : UnicodeDB :=
  {| str_lower := map ascii_lower_char;
     is_word_char := ascii_word_char;
     str_lower_empty := eq_refl |}.

(** [n] copies of a word, each followed by a blank. *)
Definition times (n : nat) (word : string) : pystr :=
  mjoin (replicate n (str word ++ str " ")).

(** ** Reading a document *)

(** [x[key]] when [x] is a dict that has the key. *)
Definition field (key : string) (x : pyval) : option pyval :=
  match x with
  | PDict d => d !! str key
  | _ => None
  end.

(** [x[i]] when [x] is a list that long. *)
Definition item (i : nat) (x : pyval) : option pyval :=
  match x with
  | PList l => l !! i
  | _ => None
  end.

(** The bookmarks the loop visits: [export_data.get('bookmarks', [])],
    iterated. *)
Definition bookmarks_of (doc : gmap pystr pyval) : result (list pyval) :=
  py_iter (default (PList []) (doc !! str "bookmarks")).

(** How many of the labels are [l]. *)
Definition occurrences (l : label) (labels : list label) : Z :=
  Z.of_nat (length (filter (λ l', l' = l) labels)).

(** The counters after a run over bookmarks with these labels. *)
Definition counts_of (labels : list label) : label → Z :=
  λ l, occurrences l labels.

(** ** What the run does to a document *)

(** [b'] carries every field of [b] but [customAnalysis] unchanged, and
    every key of an existing [customAnalysis] but the two sentiment keys. *)
Definition keeps_other_fields (b b' : pyval) : Prop :=
  ∃ fields fields',
    b = PDict fields ∧ b' = PDict fields' ∧
    (∀ key, key ≠ str "customAnalysis" → fields' !! key = fields !! key) ∧
    (∀ custom, fields !! str "customAnalysis" = Some custom →
       ∃ analysis analysis',
         custom = PDict analysis ∧
         fields' !! str "customAnalysis" = Some (PDict analysis') ∧
         ∀ key, key ≠ str "sentiment" → key ≠ str "sentimentScore" →
                analysis' !! key = analysis !! key).

(** [b'] carries the freshly computed pair of [b] under [customAnalysis]. *)
Definition carries_computed_sentiment `{UnicodeDB} (b b' : pyval) : Prop :=
  ∃ sentiment score,
    scored b = Ok (sentiment, score) ∧
    field "customAnalysis" b' ≫= field "sentiment" = Some (PStr (label_str sentiment)) ∧
    field "customAnalysis" b' ≫= field "sentimentScore" = Some (PFloat score).

(** The tally object for the given three counts. *)
Definition tally_object (positive negative neutral : Z) : pyval :=
  PDict {[ str "positive" := PInt positive;
           str "negative" := PInt negative;
           str "neutral" := PInt neutral ]}.

(** A failed run: nothing printed, one error reported, a non-zero status. *)
Definition reports_failure (o : outcome) : Prop :=
  stdout o = [] ∧ (∃ error, stderr o = [error]) ∧ exit_status o ≠ 0.

(** ** The specification's reading of the score *)

(** The exact quotient [(p - n) / (p + n)] in hundredths, rounded half to
    even. *)
Definition exact_hundredths (p n : Z) : Z :=
  round_half_even (100 * (p - n)) (p + n).

(** [h] is [a / b] rounded to the nearest integer, ties to even ([0 < b]). *)
Definition nearest_even (a b h : Z) : Prop :=
  2 * Z.abs (a - h * b) ≤ b ∧ (2 * Z.abs (a - h * b) = b → Z.even h = true).

(** The exact value [m * 2^e] of a finite double, times [100], as a fraction. *)
Definition hundredfold (m : positive) (e : Z) : Z * Z :=
  match e with
  | Zneg _ => (100 * Zpos m, 2 ^ (- e))
  | _ => (100 * Zpos m * 2 ^ e, 1)
  end.

(** [score] is the double [x] rounded to two decimals: the nearest hundredth
    of the exact binary value, ties to even, as a double again. *)
Definition rounds_half_even_to (x score : float) : Prop :=
  match x with
  | S754_finite s m e =>
      ∃ h, nearest_even (hundredfold m e).1 (hundredfold m e).2 h ∧
           0 ≤ h ≤ 100 ∧ score = signed_decimal s h 2
  | _ => score = x
  end.

(** ** Inputs used in the examples *)

(** 50 positive and 33 negative words: the quotient is 17/83 = 0.2048... *)
Definition text_50_33 : pystr := times 50 "good" ++ times 33 "bad".

(** 201 positive and 199 negative words: the quotient is 2/400 = 0.005. *)
Definition text_201_199 : pystr := times 201 "good" ++ times 199 "bad".



(** [{"source": "xkit",
      "bookmarks": [
        {"id": 1, "text": "This is a great and helpful tool"},
        {"id": 2, "text": "This is broken and terrible, a real bug",
         "customAnalysis": {"topic": "tools", "sentiment": "positive",
                            "sentimentScore": 1}},
        {"id": 3}],
      "metadata": {"exportedAt": "today"}}] *)
Definition sample_bookmark_1 : pyval :=
  PDict {[ str "id" := PInt 1;
           str "text" := PStr (str "This is a great and helpful tool") ]}.

Definition sample_bookmark_2 : pyval :=
  PDict {[ str "id" := PInt 2;
           str "text" := PStr (str "This is broken and terrible, a real bug");
           str "customAnalysis" :=
             PDict {[ str "topic" := PStr (str "tools");
                      str "sentiment" := PStr (str "positive");
                      str "sentimentScore" := PInt 1 ]} ]}.

Definition sample_bookmark_3 : pyval :=
  PDict {[ str "id" := PInt 3 ]}.

Definition sample_fields : gmap pystr pyval :=
  {[ str "source" := PStr (str "xkit");
     str "bookmarks" := PList [sample_bookmark_1; sample_bookmark_2; sample_bookmark_3];
     str "metadata" := PDict {[ str "exportedAt" := PStr (str "today") ]} ]}.

Definition sample_document : input := Document (PDict sample_fields).

Definition sample_output : pyval :=
  default PNone (head (stdout (@main ascii_db sample_document))).



(** 3 positive and 2 negative words: the quotient 1/5 is the double 0.2. *)
Definition text_3_2 : pystr := times 3 "good" ++ times 2 "bad".

(** 2 positive and 3 negative words: the quotient is the double -0.2. *)
Definition text_2_3 : pystr := times 2 "good" ++ times 3 "bad".


(** ** Auxiliary notions for the float lemmas *)

(** A zero, or a finite double of magnitude at most one, with sign [s]. *)
Definition at_most_one (s : bool) (x : float) : Prop :=
  x = S754_zero s ∨ ∃ m e, x = S754_finite s m e ∧ e ≤ 0 ∧ Zpos m ≤ 2 ^ (- e).

(** After [k] one-bit shifts of [m0]: the mantissa is [m0 / 2^k], and a power
    of two [2^j] that entered without round or sticky bit has none as long as
    [k <= j]. *)
Definition shifted (m0 j : Z) (k : nat) (mrs : shr_record) : Prop :=
  shr_m mrs = m0 / 2 ^ Z.of_nat k ∧
  (m0 = 2 ^ j → Z.of_nat k ≤ j → shr_r mrs = false ∧ shr_s mrs = false).

(** ** Notions for the further properties *)

(** [l] locates the fraction [N / D] above the integer [m]: exactly on it,
    or below, at, or above the midpoint to [m + 1]. *)
Definition locates (N D m : Z) (l : location) : Prop :=
  0 ≤ N - m * D < D ∧
  l = if N - m * D =? 0 then loc_Exact else loc_Inexact (2 * (N - m * D) ?= D).

(** The label in terms of the two counts: more than three positive hits for
    two negative ones, or the converse. *)
Definition label_of_counts (p n : Z) : label :=
  if 3 * n <? 2 * p then Positive
  else if 3 * p <? 2 * n then Negative
  else Neutral.

(** The opposite label. *)
Definition flip (l : label) : label :=
  match l with
  | Positive => Negative
  | Negative => Positive
  | Neutral => Neutral
  end.

(** 33 positive and 50 negative words. *)
Definition text_33_50 : pystr := times 33 "good" ++ times 50 "bad".

(** A text the scorer accepts: a falsy value or a str. *)
Definition scorable (v : pyval) : Prop :=
  truthy v = false ∨ ∃ s, v = PStr s.

(** A bookmark the loop body accepts: a record whose [text], if any, is
    scorable and whose [customAnalysis], if any, is a record. *)
Definition well_formed_bookmark (b : pyval) : Prop :=
  ∃ fields,
    b = PDict fields ∧
    scorable (default (PStr []) (fields !! str "text")) ∧
    ∃ analysis, default (PDict ∅) (fields !! str "customAnalysis") = PDict analysis.

(** A document the script accepts. *)
Definition well_formed (input_data : input) : Prop :=
  ∃ doc items,
    input_data = Document (PDict doc) ∧
    bookmarks_of doc = Ok items ∧
    Forall well_formed_bookmark items ∧
    ∃ meta, default (PDict ∅) (doc !! str "metadata") = PDict meta.

(** A printed annotation: one of the three labels and a score in [-1, 1]. *)
Definition well_annotated (b' : pyval) : Prop :=
  ∃ sentiment score,
    field "customAnalysis" b' ≫= field "sentiment" = Some (PStr (label_str sentiment)) ∧
    field "customAnalysis" b' ≫= field "sentimentScore" = Some (PFloat score) ∧
    in_unit_interval score = true.

(** [{"bookmarks": [{...}, {"text": 5}, {"customAnalysis": 3}]}]: the second
    bookmark raises AttributeError, the third would raise TypeError. *)
Definition fields_two_bad_bookmarks : gmap pystr pyval :=
  {[ str "bookmarks" :=
       PList [sample_bookmark_1;
              PDict {[ str "text" := PInt 5 ]};
              PDict {[ str "customAnalysis" := PInt 3 ]}] ]}.

(** * Properties *)

(** ** Binary64: a quotient of magnitude at most one

    [SFdiv] divides the mantissas with enough extra bits, then
    [binary_round_aux] shifts the surplus out and rounds to nearest even.
    None of these steps lifts a value above one. *)

Lemma digits2_pos_le p k : 0 ≤ k → Zpos p ≤ 2 ^ k → Zpos (digits2_pos p) ≤ k + 1.
Proof.
  revert k. induction p as [p IH|p IH|]; intros k Hk Hp; simpl.
  - assert (k ≠ 0) by (intros ->; simpl in Hp; lia).
    replace k with (Z.succ (k - 1)) in Hp by lia.
    rewrite Z.pow_succ_r in Hp by lia.
    specialize (IH (k - 1)). lia.
  - assert (k ≠ 0) by (intros ->; simpl in Hp; lia).
    replace k with (Z.succ (k - 1)) in Hp by lia.
    rewrite Z.pow_succ_r in Hp by lia.
    specialize (IH (k - 1)). lia.
  - lia.
Qed.

Lemma Zdigits2_le m k : 0 ≤ k → 0 ≤ m ≤ 2 ^ k → Zdigits2 m ≤ k + 1.
Proof.
  intros Hk [Hm Hle]. destruct m as [|p|p]; simpl; [lia| |lia].
  by apply digits2_pos_le.
Qed.

Lemma fexp_le_zero x : x ≤ 1 → fexp prec emax x ≤ 0.
Proof. unfold fexp, SpecFloat.emin, prec, emax. lia. Qed.

Lemma iter_pos_invariant {A} (f : A → A) (P : nat → A → Prop) :
  (∀ k x, P k x → P (S k) (f x)) →
  ∀ p k x, P k x → P (k + Pos.to_nat p)%nat (iter_pos f p x).
Proof.
  intros Hstep. induction p as [p IH|p IH|]; intros k x Hx; simpl.
  - rewrite Pos2Nat.inj_xI.
    replace (k + S (2 * Pos.to_nat p))%nat
      with (S k + Pos.to_nat p + Pos.to_nat p)%nat by lia.
    apply IH, IH, Hstep, Hx.
  - rewrite Pos2Nat.inj_xO.
    replace (k + 2 * Pos.to_nat p)%nat
      with (k + Pos.to_nat p + Pos.to_nat p)%nat by lia.
    apply IH, IH, Hx.
  - replace (k + Pos.to_nat 1)%nat with (S k) by lia. by apply Hstep.
Qed.

Lemma shr_1_m mrs : 0 ≤ shr_m mrs → shr_m (shr_1 mrs) = shr_m mrs / 2.
Proof.
  destruct mrs as [m r s]; cbn [shr_m]. intros Hm.
  destruct m as [|[p|p|]|p]; cbn [shr_1 shr_m]; try lia; try reflexivity.
  - apply Z.div_unique with 1; lia.
  - apply Z.div_unique with 0; lia.
Qed.

Lemma shr_1_exact m :
  0 < m → Z.even m = true →
  shr_1 (Build_shr_record m false false) = Build_shr_record (m / 2) false false.
Proof.
  intros Hm Hev. destruct m as [|[p|p|]|p]; try done.
  cbn [shr_1 orb]. f_equal. apply Z.div_unique with 0; lia.
Qed.

Lemma shifted_step m0 j k mrs :
  0 ≤ m0 → shifted m0 j k mrs → shifted m0 j (S k) (shr_1 mrs).
Proof.
  intros Hm0 [Hm Hex].
  assert (Hpos : 0 ≤ shr_m mrs).
  { rewrite Hm. apply Z.div_pos; [done|]. apply Z.pow_pos_nonneg; lia. }
  split.
  - rewrite shr_1_m, Hm by done.
    rewrite Z.div_div by (try apply Z.pow_pos_nonneg; lia).
    rewrite Nat2Z.inj_succ, Z.pow_succ_r by lia. f_equal. lia.
  - intros H2 Hk.
    destruct (Hex H2) as [Hr Hs]; [lia|].
    destruct mrs as [m r s]; simpl in Hr, Hs, Hm; subst r s.
    assert (Hm' : m = 2 ^ (j - Z.of_nat k)).
    { rewrite Hm, H2, <- Z.pow_sub_r; [done|lia|lia]. }
    rewrite shr_1_exact; [done| |].
    + rewrite Hm'. apply Z.pow_pos_nonneg; lia.
    + rewrite Hm'. replace (j - Z.of_nat k) with (Z.succ (j - Z.of_nat k - 1)) by lia.
      rewrite Z.pow_succ_r by lia. apply Z.even_mul.
Qed.

Lemma shr_shifted m0 j mrs e n :
  0 ≤ m0 → shifted m0 j 0 mrs → 0 < n →
  ∃ mrs', shr mrs e n = (mrs', e + n) ∧
          shr_m mrs' = m0 / 2 ^ n ∧
          (m0 = 2 ^ j → n ≤ j → shr_r mrs' = false ∧ shr_s mrs' = false).
Proof.
  intros Hm0 H0 Hn. destruct n as [|p|p]; try lia.
  exists (iter_pos shr_1 p mrs). split; [done|].
  pose proof (iter_pos_invariant shr_1 (shifted m0 j)
                (λ k x, shifted_step m0 j k x Hm0) p 0%nat mrs H0) as [H1 H2].
  rewrite Nat.add_0_l, positive_nat_Z in H1, H2. done.
Qed.

Lemma shr_fexp_le_one m e l :
  0 ≤ m → e ≤ 0 → m ≤ 2 ^ (- e) → (m = 2 ^ (- e) → l = loc_Exact) →
  ∃ mrs' e', shr_fexp prec emax m e l = (mrs', e') ∧ e' ≤ 0 ∧
             0 ≤ shr_m mrs' ≤ 2 ^ (- e') ∧
             (shr_m mrs' = 2 ^ (- e') → loc_of_shr_record mrs' = loc_Exact).
Proof.
  intros Hm He Hle Hex. unfold shr_fexp.
  assert (Hrec : shr_m (shr_record_of_loc m l) = m ∧
                 loc_of_shr_record (shr_record_of_loc m l) = l).
  { by destruct l as [|[]]. }
  destruct Hrec as [Hrm Hrl].
  assert (Hf : fexp prec emax (Zdigits2 m + e) ≤ 0).
  { apply fexp_le_zero. pose proof (Zdigits2_le m (- e)). lia. }
  set (n := fexp prec emax (Zdigits2 m + e) - e) in *.
  destruct (Z_lt_le_dec 0 n) as [Hn|Hn].
  - destruct (shr_shifted m (- e) (shr_record_of_loc m l) e n)
      as (mrs' & Hshr & Hm' & Hflags); [done| |done|].
    { split; [by rewrite Hrm, Z.pow_0_r, Z.div_1_r|].
      intros H2 _. rewrite (Hex H2). done. }
    exists mrs', (e + n). split; [done|].
    assert (H2n : 0 < 2 ^ n) by (apply Z.pow_pos_nonneg; lia).
    assert (Hsplit : 2 ^ (- e) = 2 ^ (- (e + n)) * 2 ^ n).
    { rewrite <- Z.pow_add_r by lia. f_equal. lia. }
    assert (Hq : m / 2 ^ n ≤ 2 ^ (- (e + n))).
    { apply Z.div_le_upper_bound; lia. }
    split; [lia|]. rewrite Hm'. split.
    + split; [apply Z.div_pos; lia|done].
    + intros Heq.
      assert (m = 2 ^ (- e)) as Hm2.
      { pose proof (Z.mul_div_le m (2 ^ n) H2n). nia. }
      destruct (Hflags Hm2) as [Hr Hs]; [lia|].
      destruct mrs' as [m' r s]. simpl in Hr, Hs. by subst.
  - exists (shr_record_of_loc m l), e.
    split; [by destruct n|]. rewrite Hrm, Hrl. done.
Qed.

Lemma round_nearest_even_le mx lx b :
  0 ≤ mx ≤ b → (mx = b → lx = loc_Exact) → 0 ≤ round_nearest_even mx lx ≤ b.
Proof.
  intros Hm Hex. unfold round_nearest_even.
  destruct lx as [|[]]; try destruct (Z.even mx); try lia;
    (assert (mx ≠ b) by (intros E; by specialize (Hex E)); lia).
Qed.

Lemma binary_round_aux_le_one sx mx ex lx :
  0 ≤ mx → ex ≤ 0 → mx ≤ 2 ^ (- ex) → (mx = 2 ^ (- ex) → lx = loc_Exact) →
  at_most_one sx (binary_round_aux prec emax sx mx ex lx).
Proof.
  intros Hm He Hle Hex. unfold binary_round_aux.
  destruct (shr_fexp_le_one mx ex lx) as (mrs1 & e1 & -> & He1 & Hm1 & Hex1);
    [done..|].
  pose proof (round_nearest_even_le _ _ _ Hm1 Hex1) as Hr.
  destruct (shr_fexp_le_one (round_nearest_even (shr_m mrs1) (loc_of_shr_record mrs1))
              e1 loc_Exact) as (mrs2 & e2 & -> & He2 & Hm2 & _); [lia|done|lia|done|].
  destruct (shr_m mrs2) as [|m|m] eqn:Hm2'; [by left| |lia].
  right. exists m, e2.
  replace (e2 <=? emax - prec) with true
    by (symmetry; apply Z.leb_le; unfold emax, prec; lia).
  split; [done|]. lia.
Qed.

Lemma SFdiv_le_one s (m1 m2 : positive) :
  (m1 ≤ m2)%positive →
  at_most_one s (SFdiv prec emax (S754_finite s m1 0) (S754_finite false m2 0)).
Proof.
  intros H12. unfold SFdiv, SFdiv_core_binary.
  set (e' := Z.min _ _).
  assert (He' : e' ≤ 0) by (subst e'; lia).
  replace (0 - 0 - e') with (- e') by lia.
  set (m' := match - e' with Z0 => Z.pos m1 | Zpos _ => _ | Zneg _ => _ end).
  assert (Hm' : m' = Z.pos m1 * 2 ^ (- e')).
  { subst m'. destruct (- e') as [|p|p] eqn:E; [lia| |lia].
    rewrite Z.shiftl_mul_pow2; lia. }
  pose proof (Z_div_mod m' (Z.pos m2) eq_refl) as Hdiv.
  destruct (Z.div_eucl m' (Z.pos m2)) as [q r]. destruct Hdiv as [Hqr Hr].
  assert (H2 : 0 < 2 ^ (- e')) by (apply Z.pow_pos_nonneg; lia).
  replace (xorb s false) with s by (by destruct s).
  apply binary_round_aux_le_one; [nia|done|nia|].
  intros Hq. assert (r = 0) as -> by nia.
  unfold new_location, new_location_even, new_location_odd.
  by destruct (Z.even (Z.pos m2)).
Qed.

Lemma nearest_quot_at_most_one a b :
  0 < b → Z.abs a ≤ b → at_most_one (a <? 0) (nearest_quot a b).
Proof.
  intros Hb Hab. unfold nearest_quot.
  destruct b as [|m2|m2]; try lia.
  destruct a as [|m1|m1]; cbn [float_of_int Z.ltb Z.compare].
  - by left.
  - apply SFdiv_le_one. lia.
  - apply SFdiv_le_one. lia.
Qed.

Lemma py_truediv_Ok a b :
  0 < b → Z.abs a ≤ b →
  ∃ x, py_truediv a b = Ok x ∧ at_most_one (a <? 0) x.
Proof.
  intros Hb Hab. unfold py_truediv.
  destruct (decide (b = 0)); [lia|].
  destruct (nearest_quot_at_most_one a b Hb Hab) as [E|(m & e & E & ?)];
    rewrite E; eexists; (split; [done|]).
  - by left.
  - right. eauto.
Qed.

(** ** Rounding half to even *)

Lemma round_half_even_nearest a b : 0 < b → nearest_even a b (round_half_even a b).
Proof.
  intros Hb. unfold nearest_even, round_half_even.
  pose proof (Z.div_mod a b ltac:(lia)) as Hdiv.
  pose proof (Z.mod_pos_bound a b Hb) as Hmod.
  destruct (Z.compare_spec (2 * (a mod b)) b) as [E|E|E].
  - destruct (Z.even (a / b)) eqn:Hev.
    + split; [lia|]. done.
    + split; [lia|]. intros _.
      rewrite Z.even_add, Hev. done.
  - split; lia.
  - split; lia.
Qed.

Lemma nearest_even_unique a b h1 h2 :
  0 < b → nearest_even a b h1 → nearest_even a b h2 → h1 = h2.
Proof.
  intros Hb [H1 E1] [H2 E2].
  destruct (Z.lt_trichotomy h1 h2) as [Hlt|[->|Hlt]]; [|done|].
  - assert (h2 = h1 + 1) as -> by nia.
    assert (2 * Z.abs (a - h1 * b) = b) as T1 by nia.
    assert (2 * Z.abs (a - (h1 + 1) * b) = b) as T2 by nia.
    specialize (E1 T1). specialize (E2 T2).
    rewrite Z.even_add, E1 in E2. done.
  - assert (h1 = h2 + 1) as -> by nia.
    assert (2 * Z.abs (a - h2 * b) = b) as T1 by nia.
    assert (2 * Z.abs (a - (h2 + 1) * b) = b) as T2 by nia.
    specialize (E1 T2). specialize (E2 T1).
    rewrite Z.even_add, E2 in E1. done.
Qed.

Lemma round_half_even_bounds a b n :
  0 < b → 0 ≤ a ≤ n * b → 0 ≤ round_half_even a b ≤ n.
Proof.
  intros Hb [Ha Han]. unfold round_half_even.
  pose proof (Z.div_mod a b ltac:(lia)) as Hdiv.
  pose proof (Z.mod_pos_bound a b Hb) as Hmod.
  assert (0 ≤ a / b) by (apply Z.div_pos; lia).
  assert (a / b ≤ n) by (apply Z.div_le_upper_bound; lia).
  assert (a / b = n → a mod b = 0) by nia.
  destruct (Z.compare_spec (2 * (a mod b)) b) as [E|E|E];
    try destruct (Z.even (a / b)); lia.
Qed.

Lemma round_units_bounds m e :
  e ≤ 0 → Zpos m ≤ 2 ^ (- e) → 0 ≤ round_units m e 2 ≤ 100.
Proof.
  intros He Hm. unfold round_units.
  destruct e as [|p|p]; [|lia|].
  - simpl in Hm. assert (Zpos m = 1) as -> by lia. done.
  - apply round_half_even_bounds; [apply Z.pow_pos_nonneg; lia|].
    change (10 ^ 2) with 100. lia.
Qed.

Lemma round_units_nearest m e :
  nearest_even (hundredfold m e).1 (hundredfold m e).2 (round_units m e 2).
Proof.
  unfold hundredfold, round_units. destruct e as [|p|p]; cbn [fst snd].
  - unfold nearest_even. change (10 ^ 2) with 100. split; lia.
  - unfold nearest_even. change (10 ^ 2) with 100. split; lia.
  - replace (Z.pos m * 10 ^ 2) with (100 * Z.pos m) by (change (10 ^ 2) with 100; lia).
    apply round_half_even_nearest. apply Z.pow_pos_nonneg; lia.
Qed.

Lemma signed_decimal_in_unit s h :
  0 ≤ h ≤ 100 → in_unit_interval (signed_decimal s h 2) = true.
Proof.
  intros Hh.
  assert (Hall : forallb (λ k, in_unit_interval (signed_decimal false (Z.of_nat k) 2)
                             && in_unit_interval (signed_decimal true (Z.of_nat k) 2))
                   (seq 0 101) = true) by (vm_compute; reflexivity).
  rewrite forallb_forall in Hall.
  specialize (Hall (Z.to_nat h)). rewrite Z2Nat.id in Hall by lia.
  apply andb_prop in Hall as [Hp Hn]; [by destruct s|].
  apply in_seq. lia.
Qed.

Lemma py_round_at_most_one s x :
  at_most_one s x →
  in_unit_interval (py_round x 2) = true ∧ rounds_half_even_to x (py_round x 2).
Proof.
  intros [->|(m & e & -> & He & Hm)]; [done|].
  pose proof (round_units_bounds m e He Hm) as Hb.
  split; [by apply signed_decimal_in_unit|].
  exists (round_units m e 2). split; [apply round_units_nearest|done].
Qed.

(** ** The matcher finds the maximal runs *)

Section FindallSpec.
Context `{UnicodeDB}.

Lemma match_word_rest_run c s :
  is_word_char c = true →
  ∃ w rest, splits_run s w rest ∧ match_word_rest c s = Some (c :: w, rest).
Proof.
  intros Hc. revert c Hc. induction s as [|c' s IH]; intros c Hc.
  - exists [], []. split; [done|].
    simpl. unfold word_boundary. simpl. by rewrite Hc.
  - cbn [match_word_rest]. destruct (is_word_char c') eqn:Hc'.
    + destruct (IH c' Hc') as (w & rest & (-> & Hw & Hrest) & ->).
      exists (c' :: w), rest. split; [|done].
      split; [done|]. split; [by constructor|done].
    + exists [], (c' :: s). split; [by repeat split|].
      unfold word_boundary. simpl. by rewrite Hc, Hc'.
Qed.

Lemma runs_from_run run w rest :
  Forall (λ c, is_word_char c = true) w → is_word (head rest) = false →
  runs_from run (w ++ rest) = close_run (run ++ w) ++ runs_from [] rest.
Proof.
  intros Hw Hrest. revert run. induction Hw as [|c w Hc Hw IH]; intros run.
  - rewrite app_nil_r. simpl. destruct rest as [|c' rest]; simpl.
    + by rewrite app_nil_r.
    + simpl in Hrest. by rewrite Hrest.
  - simpl. rewrite Hc, IH. by rewrite <- app_assoc.
Qed.

(** While scanning, a word character just behind the position is the end of
    a match, so no word character follows. *)
Lemma findall_from_runs fuel before s :
  (length s < fuel)%nat →
  (is_word before = true → is_word (head s) = false) →
  findall_from fuel before s = runs_from [] s.
Proof.
  revert before s. induction fuel as [|fuel IH]; intros before s Hfuel Hinv; [lia|].
  destruct s as [|c s]; [done|].
  cbn [findall_from match_word runs_from]. simpl in Hfuel, Hinv.
  destruct (is_word_char c) eqn:Hc.
  - assert (is_word before = false) as Hb.
    { destruct (is_word before); [|done]. by specialize (Hinv eq_refl). }
    unfold word_boundary. rewrite Hb. simpl. rewrite Hc. simpl.
    destruct (match_word_rest_run c s Hc) as (w & rest & (-> & Hw & Hrest) & ->).
    rewrite IH.
    + rewrite runs_from_run by done. done.
    + rewrite length_app in Hfuel. lia.
    + done.
  - rewrite andb_false_r. simpl. apply IH; [lia|].
    simpl. by rewrite Hc.
Qed.

Lemma findall_words_maximal_runs s : findall_words s = maximal_runs s.
Proof. apply findall_from_runs; [lia|done]. Qed.


End FindallSpec.

(** ** The scorer *)

Lemma count_in_nonneg lexicon words : 0 ≤ count_in lexicon words.
Proof. unfold count_in. lia. Qed.

Section ScorerSpec.
Context `{UnicodeDB}.

Lemma words_of_empty : words_of [] = [].
Proof. unfold words_of. by rewrite str_lower_empty. Qed.

(** On a str the function is the division guarded by the count test: the
    early return for an empty text agrees with it. *)
Lemma analyze_sentiment_str text :
  let p := positive_count text in
  let n := negative_count text in
  analyze_sentiment (PStr text) =
    if decide (p + n = 0) then Ok (Neutral, S754_zero false)
    else score ← py_truediv (p - n) (p + n);
         Ok (label_of_score score, py_round score 2).
Proof.
  unfold positive_count, negative_count, analyze_sentiment.
  destruct text as [|c text]; [|done].
  cbn [truthy negb]. rewrite words_of_empty. done.
Qed.

Lemma quotient_at_most_one text :
  let p := positive_count text in
  let n := negative_count text in
  p + n ≠ 0 →
  ∃ x, py_truediv (p - n) (p + n) = Ok x ∧ at_most_one (p - n <? 0) x.
Proof.
  intros p n Hpn.
  pose proof (count_in_nonneg POSITIVE_WORDS (words_of text)).
  pose proof (count_in_nonneg NEGATIVE_WORDS (words_of text)).
  apply py_truediv_Ok; unfold p, n, positive_count, negative_count in *; lia.
Qed.
End ScorerSpec.

Lemma count_in_cons lexicon word words :
  count_in lexicon (word :: words) =
    (if bool_decide (word ∈ lexicon) then 1 else 0) + count_in lexicon words.
Proof.
  unfold count_in. rewrite filter_cons.
  case_bool_decide; destruct (decide (word ∈ lexicon)); try done; simpl; lia.
Qed.

Section TokensOnly.
Context `{UnicodeDB}.


Lemma same_words_same_result t1 t2 :
  words_of t1 = words_of t2 →
  analyze_sentiment (PStr t1) = analyze_sentiment (PStr t2).
Proof.
  intros Hw. rewrite !analyze_sentiment_str. cbv zeta.
  unfold positive_count, negative_count. by rewrite Hw.
Qed.
End TokensOnly.


(** C3. A text without any lexicon word, the empty text included, is scored as
    the pair (neutral, 0.0): the literal zero, no division takes place. *)
Theorem no_lexicon_hit_is_neutral_zero `{UnicodeDB} (text : pystr) :
  positive_count text + negative_count text = 0 →
  analyze_sentiment (PStr text) = Ok (Neutral, S754_zero false).
Proof.
  intros Hpn. rewrite analyze_sentiment_str. cbv zeta.
  by destruct (decide _).
Qed.

Lemma no_lexicon_hit_examples :
  let zero_hits text :=
    @positive_count ascii_db text + @negative_count ascii_db text = 0 ∧
    @analyze_sentiment ascii_db (PStr text) = Ok (Neutral, S754_zero false) in
  zero_hits [] ∧ zero_hits (str "?!... -- ;") ∧ zero_hits (str "12345 678") ∧
  zero_hits (str "The weather today is mild").
Proof.
  cbv zeta.
  repeat apply conj;
    first [ apply (@no_lexicon_hit_is_neutral_zero ascii_db); vm_compute; reflexivity
          | vm_compute; reflexivity ].
Defined.

(** C9. On every str the scorer returns a (label, score) pair and raises
    nothing; the division is only evaluated with a divisor [p + n] other than
    zero, and then it raises nothing either. *)
Theorem analyze_sentiment_never_raises `{UnicodeDB} (text : pystr) :
  let p := positive_count text in
  let n := negative_count text in
  (∃ sentiment score, analyze_sentiment (PStr text) = Ok (sentiment, score)) ∧
  (p + n = 0 → analyze_sentiment (PStr text) = Ok (Neutral, S754_zero false)) ∧
  (p + n ≠ 0 → ∃ quotient, py_truediv (p - n) (p + n) = Ok quotient).
Proof.
  intros p n. rewrite analyze_sentiment_str. cbv zeta. fold p n.
  destruct (decide (p + n = 0)) as [E|E].
  - split; [by eauto|]. split; [done|]. done.
  - destruct (quotient_at_most_one text E) as (x & Hx & _). fold p n in Hx.
    rewrite Hx. split; [by eauto|]. split; [done|]. eauto.
Qed.

(** The two sides of the ladder exclude each other: no double is above 0.2
    and below -0.2. *)
Lemma not_above_and_below x :
  float_lt (decimal 2 1) x = true → float_lt x (float_neg (decimal 2 1)) = true → False.
Proof.
  unfold float_lt, float_neg.
  replace (decimal 2 1) with (S754_finite false 7205759403792794 (-55))
    by (vm_compute; reflexivity).
  destruct x as [[]|[]| |[] m e]; cbn [SFopp negb]; try done.
Qed.

Lemma label_of_score_thresholds x :
  (label_of_score x = Positive ↔ float_lt (decimal 2 1) x = true) ∧
  (label_of_score x = Negative ↔ float_lt x (float_neg (decimal 2 1)) = true) ∧
  (label_of_score x = Neutral ↔
     float_lt (decimal 2 1) x = false ∧ float_lt x (float_neg (decimal 2 1)) = false).
Proof.
  pose proof (not_above_and_below x) as Hex. unfold label_of_score.
  destruct (float_lt (decimal 2 1) x), (float_lt x (float_neg (decimal 2 1)));
    repeat split; try done; try (by intros [? ?]); intros _; by destruct Hex.
Qed.

(** C1, as the code has it. When [p + n > 0] the label is read off the
    quotient before it is rounded, the double [(p - n) / (p + n)]: positive
    exactly when the quotient is above 0.2, negative exactly when it is
    below -0.2, neutral exactly when it is neither, the quotients 0.2 and
    -0.2 themselves included; the score returned with the label is that
    quotient rounded to two decimals. *)
Theorem label_follows_unrounded_score `{UnicodeDB} (text : pystr) :
  let p := positive_count text in
  let n := negative_count text in
  0 < p + n →
  ∃ quotient sentiment,
    py_truediv (p - n) (p + n) = Ok quotient ∧
    analyze_sentiment (PStr text) = Ok (sentiment, py_round quotient 2) ∧
    (sentiment = Positive ↔ float_lt (decimal 2 1) quotient = true) ∧
    (sentiment = Negative ↔ float_lt quotient (float_neg (decimal 2 1)) = true) ∧
    (sentiment = Neutral ↔
       float_lt (decimal 2 1) quotient = false ∧
       float_lt quotient (float_neg (decimal 2 1)) = false) ∧
    (quotient = decimal 2 1 → sentiment = Neutral) ∧
    (quotient = float_neg (decimal 2 1) → sentiment = Neutral).
Proof.
  intros p n Hpn. rewrite analyze_sentiment_str. cbv zeta. fold p n.
  destruct (decide (p + n = 0)) as [E|E]; [lia|].
  destruct (quotient_at_most_one text E) as (x & Hx & _). fold p n in Hx.
  exists x, (label_of_score x). split; [done|]. split; [by rewrite Hx|].
  destruct (label_of_score_thresholds x) as (Hpos & Hneg & Hneu).
  split; [done|]. split; [done|]. split; [done|].
  split; intros ->; apply Hneu; split; vm_compute; reflexivity.
Qed.

(** 50 against 33 hits: the quotient is above 0.2 and the label positive,
    the score 0.2.  3 against 2 and 2 against 3 hits: the quotients are the
    doubles 0.2 and -0.2, and the label is neutral. *)
Lemma label_follows_unrounded_score_examples :
  (0 < @positive_count ascii_db text_50_33 + @negative_count ascii_db text_50_33 ∧
   0 < @positive_count ascii_db text_3_2 + @negative_count ascii_db text_3_2 ∧
   0 < @positive_count ascii_db text_2_3 + @negative_count ascii_db text_2_3) ∧
  (@analyze_sentiment ascii_db (PStr text_50_33) = Ok (Positive, decimal 20 2) ∧
   py_truediv 1 5 = Ok (decimal 2 1) ∧
   @analyze_sentiment ascii_db (PStr text_3_2) = Ok (Neutral, decimal 20 2) ∧
   py_truediv (-1) 5 = Ok (float_neg (decimal 2 1)) ∧
   @analyze_sentiment ascii_db (PStr text_2_3) = Ok (Neutral, float_neg (decimal 20 2))) ∧
  ∃ quotient sentiment,
    py_truediv (@positive_count ascii_db text_50_33 - @negative_count ascii_db text_50_33)
               (@positive_count ascii_db text_50_33 + @negative_count ascii_db text_50_33)
      = Ok quotient ∧
    @analyze_sentiment ascii_db (PStr text_50_33) = Ok (sentiment, py_round quotient 2) ∧
    (sentiment = Positive ↔ float_lt (decimal 2 1) quotient = true) ∧
    (sentiment = Negative ↔ float_lt quotient (float_neg (decimal 2 1)) = true) ∧
    (sentiment = Neutral ↔
       float_lt (decimal 2 1) quotient = false ∧
       float_lt quotient (float_neg (decimal 2 1)) = false) ∧
    (quotient = decimal 2 1 → sentiment = Neutral) ∧
    (quotient = float_neg (decimal 2 1) → sentiment = Neutral).
Proof.
  split; [repeat split; vm_compute; reflexivity|].
  split; [repeat split; vm_compute; reflexivity|].
  apply (@label_follows_unrounded_score ascii_db text_50_33). vm_compute. reflexivity.
Defined.

(** C1 as stated fails: with 50 positive and 33 negative words the quotient
    17/83 is above 0.2 and the label is positive, while the rounded score 0.2
    is on the neutral side of the threshold. *)
Lemma label_of_rounded_score_differs :
  @positive_count ascii_db text_50_33 = 50 ∧
  @negative_count ascii_db text_50_33 = 33 ∧
  @analyze_sentiment ascii_db (PStr text_50_33) = Ok (Positive, decimal 20 2) ∧
  label_of_score (decimal 20 2) = Neutral.
Proof. repeat split; vm_compute; reflexivity. Qed.

(** C7, as the code has it. Every score lies in [-1.0, 1.0]. When [p + n > 0]
    the score is the binary64 quotient of [p - n] by [p + n], rounded to two
    decimals half to even on that double's exact value. *)
Theorem score_is_rounded_double_in_unit_interval `{UnicodeDB} (text : pystr) :
  let p := positive_count text in
  let n := negative_count text in
  ∃ sentiment score,
    analyze_sentiment (PStr text) = Ok (sentiment, score) ∧
    in_unit_interval score = true ∧
    (0 < p + n →
     ∃ quotient, py_truediv (p - n) (p + n) = Ok quotient ∧
                 score = py_round quotient 2 ∧
                 rounds_half_even_to quotient score).
Proof.
  intros p n. rewrite analyze_sentiment_str. cbv zeta. fold p n.
  destruct (decide (p + n = 0)) as [E|E].
  - exists Neutral, (S754_zero false). split; [done|]. split; [done|]. lia.
  - destruct (quotient_at_most_one text E) as (x & Hx & Hone). fold p n in Hx.
    rewrite Hx. destruct (py_round_at_most_one _ _ Hone) as [Hunit Hround].
    exists (label_of_score x), (py_round x 2).
    split; [done|]. split; [done|]. intros _. by exists x.
Qed.

(** C7 as stated fails: with 201 positive and 199 negative words the exact
    quotient 2/400 = 0.005 is a tie, which half-to-even takes to 0.00; the
    double nearest to 0.005 is 5764607523034235 / 2^60, above the tie, and the
    score is 0.01. *)
Lemma exact_tie_is_rounded_by_its_double :
  @positive_count ascii_db text_201_199 = 201 ∧
  @negative_count ascii_db text_201_199 = 199 ∧
  exact_hundredths 201 199 = 0 ∧
  py_truediv (201 - 199) (201 + 199) = Ok (S754_finite false 5764607523034235 (-60)) ∧
  2 ^ 60 < 200 * 5764607523034235 ∧
  @analyze_sentiment ascii_db (PStr text_201_199) = Ok (Neutral, decimal 1 2) ∧
  decimal 1 2 ≠ decimal (exact_hundredths 201 199) 2.
Proof. repeat split; try (vm_compute; reflexivity). vm_compute. discriminate. Qed.



(** ** The specification's scenarios, run on the embedding *)

Example scenario_great_and_helpful :
  @analyze_sentiment ascii_db (PStr (str "This is a great and helpful tool"))
    = Ok (Positive, decimal 1 0).
Proof. vm_compute. reflexivity. Qed.

Example scenario_broken_terrible_bug :
  @analyze_sentiment ascii_db (PStr (str "This is broken and terrible, a real bug"))
    = Ok (Negative, float_neg (decimal 1 0)).
Proof. vm_compute. reflexivity. Qed.

Example scenario_good_but_bad :
  @analyze_sentiment ascii_db (PStr (str "good but bad")) = Ok (Neutral, S754_zero false).
Proof. vm_compute. reflexivity. Qed.

Example scenario_upper_case :
  @analyze_sentiment ascii_db (PStr (str "GOOD")) =
    @analyze_sentiment ascii_db (PStr (str "good")).
Proof. vm_compute. reflexivity. Qed.

(** 9 positive and 7 negative words: 2/16 = 0.125 is a tie in binary too, and
    goes to the even hundredth 0.12. *)
Example scenario_binary_tie :
  @analyze_sentiment ascii_db (PStr (times 9 "good" ++ times 7 "bad"))
    = Ok (Neutral, decimal 12 2).
Proof. vm_compute. reflexivity. Qed.

(** The literal [0.2] is the double 0x3FC999999999999A. *)
Example literal_0_2 : decimal 2 1 = S754_finite false 7205759403792794 (-55).
Proof. vm_compute. reflexivity. Qed.

(** ** The pipeline *)

Lemma bookmarks_of_array doc items array :
  bookmarks_of doc = Ok items → doc !! str "bookmarks" = Some (PList array) →
  items = array.
Proof. unfold bookmarks_of. intros Hitems Harray. rewrite Harray in Hitems. by injection Hitems. Qed.

Lemma occurrences_cons l l' labels :
  occurrences l (l' :: labels) =
    (if decide (l' = l) then 1 else 0) + occurrences l labels.
Proof.
  unfold occurrences. rewrite filter_cons.
  destruct (decide (l' = l)); simpl; lia.
Qed.

Lemma occurrences_total labels :
  occurrences Positive labels + occurrences Negative labels + occurrences Neutral labels
    = Z.of_nat (length labels).
Proof.
  induction labels as [|l labels IH]; [done|].
  rewrite !occurrences_cons. cbn [length]. rewrite Nat2Z.inj_succ.
  destruct l; repeat case_decide; try done; lia.
Qed.

Section PipelineSpec.
Context `{UnicodeDB}.

Lemma enrich_one_Ok bookmark sentiment e :
  enrich_one bookmark = Ok (sentiment, e) →
  ∃ fields analysis score,
    bookmark = PDict fields ∧
    scored bookmark = Ok (sentiment, score) ∧
    default (PDict ∅) (fields !! str "customAnalysis") = PDict analysis ∧
    e = PDict (<[str "customAnalysis" :=
                   PDict (<[str "sentimentScore" := PFloat score]>
                          (<[str "sentiment" := PStr (label_str sentiment)]> analysis))]>
               fields).
Proof.
  unfold enrich_one, scored, enriched.
  destruct bookmark as [| | | | | |fields]; try done.
  cbn [py_get mbind result_bind py_mapping].
  destruct (analyze_sentiment _) as [[l score]|]; [|done].
  destruct (default (PDict ∅) (fields !! str "customAnalysis")) as [| | | | | |analysis] eqn:E;
    try done.
  cbn. intros [= <- <-]. by exists fields, analysis, score.
Qed.

Lemma enrich_loop_cons bookmark rest acc counts :
  enrich_loop (bookmark :: rest) acc counts =
    '(sentiment, e) ← enrich_one bookmark;
    enrich_loop rest (acc ++ [e]) (bump sentiment counts).
Proof.
  cbn [enrich_loop]. unfold enrich_one.
  destruct (py_get bookmark _ _) as [text|]; [|done]. cbn [mbind result_bind].
  destruct (analyze_sentiment text) as [[l score]|]; [|done]. cbn [mbind result_bind].
  by destruct (enriched bookmark l score).
Qed.

Lemma enrich_loop_Ok bookmarks acc counts out counts' :
  enrich_loop bookmarks acc counts = Ok (out, counts') →
  ∃ rs, Forall2 (λ b r, enrich_one b = Ok r) bookmarks rs ∧
        out = acc ++ rs.*2 ∧
        ∀ l, counts' l = counts l + occurrences l rs.*1.
Proof.
  revert acc counts. induction bookmarks as [|b rest IH]; intros acc counts.
  - intros [= <- <-]. exists []. split; [constructor|].
    split; [by rewrite app_nil_r|]. intros l. unfold occurrences. simpl. lia.
  - rewrite enrich_loop_cons.
    destruct (enrich_one b) as [[l e]|] eqn:Hb; [|done]. cbn [mbind result_bind].
    intros Hrest. destruct (IH _ _ Hrest) as (rs & Hrs & -> & Hcounts).
    exists ((l, e) :: rs). split; [by constructor|].
    split; [by rewrite <- app_assoc|].
    intros l'. rewrite Hcounts. cbn [fmap list_fmap fst].
    rewrite occurrences_cons. unfold bump.
    destruct (decide (l' = l)) as [->|]; destruct (decide _); try done; lia.
Qed.


Lemma tally_ext counts counts' :
  (∀ l, counts l = counts' l) → tally counts = tally counts'.
Proof. intros E. unfold tally. by rewrite !E. Qed.

Lemma transform_Ok input_data out :
  transform input_data = Ok out →
  ∃ doc items rs meta,
    input_data = Document (PDict doc) ∧
    bookmarks_of doc = Ok items ∧
    Forall2 (λ b r, enrich_one b = Ok r) items rs ∧
    default (PDict ∅) (doc !! str "metadata") = PDict meta ∧
    out = PDict (<[str "metadata" :=
                     PDict (<[str "sentimentAnalysis" := tally (counts_of rs.*1)]> meta)]>
                 (<[str "bookmarks" := PList rs.*2]> doc)).
Proof.
  unfold transform.
  destruct input_data as [|[| | | | | |doc]]; try done.
  cbn [json_loads mbind result_bind py_get py_mapping].
  fold (bookmarks_of doc).
  destruct (bookmarks_of doc) as [items|] eqn:Hitems; [|done]. cbn [mbind result_bind].
  destruct (enrich_loop items [] no_counts) as [[enriched counts]|] eqn:Hloop; [|done].
  cbn [mbind result_bind].
  destruct (default (PDict ∅) (doc !! str "metadata")) as [| | | | | |meta] eqn:E; try done.
  cbn. intros [= <-].
  destruct (enrich_loop_Ok _ _ _ _ _ Hloop) as (rs & Hrs & -> & Hcounts).
  exists doc, items, rs, meta. repeat (split; [done|]).
  rewrite app_nil_l. do 4 f_equal. apply tally_ext. intros l.
  rewrite Hcounts. done.
Qed.

Lemma main_stdout input_data out :
  stdout (main input_data) = [out] → transform input_data = Ok out.
Proof. unfold main. destruct (transform input_data); [by intros [= ->]|done]. Qed.
End PipelineSpec.

Ltac str_neq :=
  let E := fresh in intros E; vm_compute in E; discriminate E.

Section PerBookmark.
Context `{UnicodeDB}.

Lemma enrich_one_keeps b sentiment b' :
  enrich_one b = Ok (sentiment, b') → keeps_other_fields b b'.
Proof.
  intros (fields & analysis & score & -> & _ & Hcustom & ->)%enrich_one_Ok.
  eexists _, _. split; [done|]. split; [done|]. split.
  - intros key Hkey. by rewrite lookup_insert_ne.
  - intros custom Hc. rewrite Hc in Hcustom. simpl in Hcustom. subst custom.
    eexists _, _. split; [done|]. split; [by rewrite lookup_insert_eq|].
    intros key H1 H2. by rewrite !lookup_insert_ne.
Qed.

Lemma enrich_one_carries b sentiment b' :
  enrich_one b = Ok (sentiment, b') → carries_computed_sentiment b b'.
Proof.
  intros (fields & analysis & score & -> & Hscored & _ & ->)%enrich_one_Ok.
  exists sentiment, score. split; [done|].
  unfold field at 2 4. rewrite lookup_insert_eq. cbn [mbind option_bind field].
  split.
  - rewrite lookup_insert_ne by str_neq. by rewrite lookup_insert_eq.
  - by rewrite lookup_insert_eq.
Qed.

Lemma enrich_one_sentiment b sentiment b' :
  enrich_one b = Ok (sentiment, b') → sentiment_of b = Ok sentiment.
Proof.
  intros (fields & analysis & score & -> & Hscored & _ & ->)%enrich_one_Ok.
  unfold sentiment_of. by rewrite Hscored.
Qed.
End PerBookmark.

(** C2. On a successful run the tally printed under
    [metadata.sentimentAnalysis] holds, per label, the number of bookmarks
    whose computed label it is, and the three counts add up to the number of
    bookmarks. *)
Theorem tally_counts_every_bookmark `{UnicodeDB} (input_data : input) (out : pyval) :
  stdout (main input_data) = [out] →
  ∃ doc items labels,
    input_data = Document (PDict doc) ∧
    bookmarks_of doc = Ok items ∧
    (∀ array, doc !! str "bookmarks" = Some (PList array) → items = array) ∧
    Forall2 (λ b l, sentiment_of b = Ok l) items labels ∧
    field "metadata" out ≫= field "sentimentAnalysis" =
      Some (tally_object (occurrences Positive labels)
                         (occurrences Negative labels)
                         (occurrences Neutral labels)) ∧
    occurrences Positive labels + occurrences Negative labels
      + occurrences Neutral labels = Z.of_nat (length items).
Proof.
  intros (doc & items & rs & meta & -> & Hitems & Hrs & _ & ->)%main_stdout%transform_Ok.
  exists doc, items, rs.*1. split; [done|]. split; [done|].
  split; [intros array; by apply bookmarks_of_array|]. split; [|split].
  - apply Forall2_fmap_r. eapply Forall2_impl; [exact Hrs|].
    intros b [l b'] Hb. by eapply enrich_one_sentiment.
  - unfold field at 2. rewrite lookup_insert_eq. cbn [mbind option_bind field].
    rewrite lookup_insert_eq. reflexivity.
  - rewrite occurrences_total, length_fmap. f_equal.
    symmetry. by eapply Forall2_length.
Qed.

(** C6. On a successful run the printed [bookmarks] array is as long as the
    sequence of input bookmarks and holds at every index the enrichment of
    the input bookmark at that index. *)
Theorem bookmarks_keep_their_order `{UnicodeDB} (input_data : input) (out : pyval) :
  stdout (main input_data) = [out] →
  ∃ doc items enriched_items,
    input_data = Document (PDict doc) ∧
    bookmarks_of doc = Ok items ∧
    (∀ array, doc !! str "bookmarks" = Some (PList array) → items = array) ∧
    field "bookmarks" out = Some (PList enriched_items) ∧
    length enriched_items = length items ∧
    ∀ i b, items !! i = Some b →
           ∃ sentiment b', enrich_one b = Ok (sentiment, b') ∧
                           enriched_items !! i = Some b'.
Proof.
  intros (doc & items & rs & meta & -> & Hitems & Hrs & _ & ->)%main_stdout%transform_Ok.
  exists doc, items, rs.*2. split; [done|]. split; [done|].
  split; [intros array; by apply bookmarks_of_array|]. split; [|split].
  - unfold field. rewrite lookup_insert_ne by str_neq. by rewrite lookup_insert_eq.
  - rewrite length_fmap. symmetry. by eapply Forall2_length.
  - intros i b Hi. destruct (Forall2_lookup_l _ _ _ _ _ Hrs Hi) as ([l b'] & Hr & Hb).
    exists l, b'. split; [done|]. by rewrite list_lookup_fmap, Hr.
Qed.

(** C4. On a successful run every top-level field but [bookmarks] and
    [metadata], every field of a bookmark but [customAnalysis], and every key
    of an existing [customAnalysis] but [sentiment] and [sentimentScore], is
    printed with the value it had in the input. *)
Theorem other_fields_are_preserved `{UnicodeDB} (input_data : input) (out : pyval) :
  stdout (main input_data) = [out] →
  ∃ doc printed items enriched_items,
    input_data = Document (PDict doc) ∧ out = PDict printed ∧
    (∀ key, key ≠ str "bookmarks" → key ≠ str "metadata" →
            printed !! key = doc !! key) ∧
    bookmarks_of doc = Ok items ∧
    printed !! str "bookmarks" = Some (PList enriched_items) ∧
    Forall2 keeps_other_fields items enriched_items.
Proof.
  intros (doc & items & rs & meta & -> & Hitems & Hrs & _ & ->)%main_stdout%transform_Ok.
  eexists doc, _, items, rs.*2. split; [done|]. split; [done|].
  split; [|split; [done|split]].
  - intros key H1 H2. by rewrite !lookup_insert_ne.
  - rewrite lookup_insert_ne by str_neq. by rewrite lookup_insert_eq.
  - apply Forall2_fmap_r. eapply Forall2_impl; [exact Hrs|].
    intros b [l b'] Hb. by eapply enrich_one_keeps.
Qed.

(** C10. On a successful run every printed bookmark has, under
    [customAnalysis], the label and the score computed for its text, whatever
    the input held under these two keys. *)
Theorem computed_sentiment_wins `{UnicodeDB} (input_data : input) (out : pyval) :
  stdout (main input_data) = [out] →
  ∃ doc items enriched_items,
    input_data = Document (PDict doc) ∧
    bookmarks_of doc = Ok items ∧
    field "bookmarks" out = Some (PList enriched_items) ∧
    Forall2 carries_computed_sentiment items enriched_items.
Proof.
  intros (doc & items & rs & meta & -> & Hitems & Hrs & _ & ->)%main_stdout%transform_Ok.
  exists doc, items, rs.*2. split; [done|]. split; [done|]. split.
  - unfold field. rewrite lookup_insert_ne by str_neq. by rewrite lookup_insert_eq.
  - apply Forall2_fmap_r. eapply Forall2_impl; [exact Hrs|].
    intros b [l b'] Hb. by eapply enrich_one_carries.
Qed.

Section Failures.
Context `{UnicodeDB}.

Lemma main_Raise input_data error :
  transform input_data = Raise error →
  main input_data = {| stdout := []; stderr := [error]; exit_status := 1 |}.
Proof. unfold main. by intros ->. Qed.

Lemma raise_reports_failure input_data error :
  transform input_data = Raise error → reports_failure (main input_data).
Proof. intros ->%main_Raise. split; [done|]. split; [by eexists|done]. Qed.



End Failures.




(** The sample document: three bookmarks, one of each label. *)
Lemma tally_of_sample_document :
  stdout (@main ascii_db sample_document) = [sample_output] ∧
  field "metadata" sample_output ≫= field "sentimentAnalysis" = Some (tally_object 1 1 1) ∧
  ∃ doc items labels,
    sample_document = Document (PDict doc) ∧
    bookmarks_of doc = Ok items ∧
    (∀ array, doc !! str "bookmarks" = Some (PList array) → items = array) ∧
    Forall2 (λ b l, @sentiment_of ascii_db b = Ok l) items labels ∧
    field "metadata" sample_output ≫= field "sentimentAnalysis" =
      Some (tally_object (occurrences Positive labels)
                         (occurrences Negative labels)
                         (occurrences Neutral labels)) ∧
    occurrences Positive labels + occurrences Negative labels
      + occurrences Neutral labels = Z.of_nat (length items).
Proof.
  split; [vm_compute; reflexivity|]. split; [vm_compute; reflexivity|].
  apply (@tally_counts_every_bookmark ascii_db). vm_compute. reflexivity.
Defined.

Lemma order_of_sample_document :
  stdout (@main ascii_db sample_document) = [sample_output] ∧
  (field "bookmarks" sample_output ≫= item 1) ≫= field "id" = Some (PInt 2) ∧
  ∃ doc items enriched_items,
    sample_document = Document (PDict doc) ∧
    bookmarks_of doc = Ok items ∧
    (∀ array, doc !! str "bookmarks" = Some (PList array) → items = array) ∧
    field "bookmarks" sample_output = Some (PList enriched_items) ∧
    length enriched_items = length items ∧
    ∀ i b, items !! i = Some b →
           ∃ sentiment b', @enrich_one ascii_db b = Ok (sentiment, b') ∧
                           enriched_items !! i = Some b'.
Proof.
  split; [vm_compute; reflexivity|]. split; [vm_compute; reflexivity|].
  apply (@bookmarks_keep_their_order ascii_db). vm_compute. reflexivity.
Defined.

Lemma fields_of_sample_document :
  stdout (@main ascii_db sample_document) = [sample_output] ∧
  field "source" sample_output = Some (PStr (str "xkit")) ∧
  ((field "bookmarks" sample_output ≫= item 1) ≫= field "customAnalysis") ≫= field "topic"
    = Some (PStr (str "tools")) ∧
  ∃ doc printed items enriched_items,
    sample_document = Document (PDict doc) ∧ sample_output = PDict printed ∧
    (∀ key, key ≠ str "bookmarks" → key ≠ str "metadata" →
            printed !! key = doc !! key) ∧
    bookmarks_of doc = Ok items ∧
    printed !! str "bookmarks" = Some (PList enriched_items) ∧
    Forall2 keeps_other_fields items enriched_items.
Proof.
  split; [vm_compute; reflexivity|]. split; [vm_compute; reflexivity|].
  split; [vm_compute; reflexivity|].
  apply (@other_fields_are_preserved ascii_db). vm_compute. reflexivity.
Defined.

Lemma sentiment_of_sample_document :
  stdout (@main ascii_db sample_document) = [sample_output] ∧
  ((field "bookmarks" sample_output ≫= item 1) ≫= field "customAnalysis") ≫= field "sentiment"
    = Some (PStr (str "negative")) ∧
  ((field "bookmarks" sample_output ≫= item 1) ≫= field "customAnalysis")
    ≫= field "sentimentScore" = Some (PFloat (float_neg (decimal 1 0))) ∧
  ∃ doc items enriched_items,
    sample_document = Document (PDict doc) ∧
    bookmarks_of doc = Ok items ∧
    field "bookmarks" sample_output = Some (PList enriched_items) ∧
    Forall2 (@carries_computed_sentiment ascii_db) items enriched_items.
Proof.
  split; [vm_compute; reflexivity|]. split; [vm_compute; reflexivity|].
  split; [vm_compute; reflexivity|].
  apply (@computed_sentiment_wins ascii_db). vm_compute. reflexivity.
Defined.

(** The remaining scenarios of the specification. *)
Example scenario_no_bookmarks :
  @main ascii_db (Document (PDict {[ str "bookmarks" := PList [] ]})) =
    {| stdout := [PDict {[ str "bookmarks" := PList [];
                           str "metadata" :=
                             PDict {[ str "sentimentAnalysis" := tally_object 0 0 0 ]} ]}];
       stderr := []; exit_status := 0 |}.
Proof. vm_compute. reflexivity. Qed.

Example scenario_malformed :
  @main ascii_db Malformed =
    {| stdout := []; stderr := [JSONDecodeError]; exit_status := 1 |}.
Proof. reflexivity. Qed.

(** * Further properties *)

(** ** Binary64: the quotient is the nearest double *)

Lemma digits2_pos_bounds p :
  2 ^ (Zpos (digits2_pos p) - 1) ≤ Zpos p < 2 ^ Zpos (digits2_pos p).
Proof.
  induction p as [p IH|p IH|]; cbn [digits2_pos]; [| |simpl; lia].
  - rewrite Pos2Z.inj_succ.
    replace (Z.succ (Z.pos (digits2_pos p)) - 1) with (Z.succ (Z.pos (digits2_pos p) - 1)) by lia.
    rewrite !Z.pow_succ_r by lia. lia.
  - rewrite Pos2Z.inj_succ.
    replace (Z.succ (Z.pos (digits2_pos p)) - 1) with (Z.succ (Z.pos (digits2_pos p) - 1)) by lia.
    rewrite !Z.pow_succ_r by lia. lia.
Qed.

Lemma Zdigits2_unique m k :
  0 < k → 2 ^ (k - 1) ≤ m < 2 ^ k → Zdigits2 m = k.
Proof.
  intros Hk [Hlo Hhi].
  assert (0 < m) by (pose proof (Z.pow_pos_nonneg 2 (k - 1)); lia).
  destruct m as [|p|p]; try lia. cbn [Zdigits2].
  pose proof (digits2_pos_bounds p) as [Plo Phi].
  set (d := Z.pos (digits2_pos p)) in *.
  assert (0 < d) by (subst d; lia).
  destruct (Z.lt_trichotomy d k) as [Hlt|[->|Hgt]]; [|done|].
  - assert (2 ^ d ≤ 2 ^ (k - 1)) by (apply Z.pow_le_mono_r; lia). lia.
  - assert (2 ^ k ≤ 2 ^ (d - 1)) by (apply Z.pow_le_mono_r; lia). lia.
Qed.

Lemma new_location_locates b r N q :
  0 < b → 0 ≤ r < b → N = b * q + r → locates N b q (new_location b r).
Proof.
  intros Hb Hr ->. unfold locates.
  replace (b * q + r - q * b) with r by lia. split; [done|].
  unfold new_location.
  destruct (Z.even b) eqn:Hev; unfold new_location_even, new_location_odd;
    destruct (r =? 0) eqn:Hr0; try done.
  assert (Z.odd b = true) as [k Hk]%Z.odd_spec by (by rewrite <- Z.negb_even, Hev).
  f_equal.
  destruct (Z.compare_spec (2 * r + 1) b), (Z.compare_spec (2 * r) b); try done; lia.
Qed.

(** One shift to the right halves the resolution. *)
Lemma shr_1_locates N D m l :
  0 < D → 0 ≤ m → locates N D m l →
  let mrs := shr_1 (shr_record_of_loc m l) in
  shr_m mrs = m / 2 ∧ locates N (2 * D) (m / 2) (loc_of_shr_record mrs).
Proof.
  intros HD Hm [Hrem ->]. cbv zeta.
  set (rem := N - m * D) in *.
  assert (Hm2 : m = 2 * (m / 2) + m mod 2) by (apply Z.div_mod; lia).
  pose proof (Z.mod_pos_bound m 2 ltac:(lia)) as Hbit.
  assert (Hshape : ∀ r s, shr_1 (Build_shr_record m r s)
            = Build_shr_record (m / 2) (negb (m mod 2 =? 0)) (r || s)).
  { intros r s. destruct m as [|[p|p|]|p]; try lia; cbn [shr_1]; f_equal.
    - apply Z.div_unique with 1; lia.
    - replace (Z.pos p~1) with (1 + Z.pos p * 2) by lia.
      by rewrite Z.mod_add by lia.
    - apply Z.div_unique with 0; lia.
    - replace (Z.pos p~0) with (0 + Z.pos p * 2) by lia.
      by rewrite Z.mod_add by lia. }
  assert (Hrem' : N - m / 2 * (2 * D) = (m mod 2) * D + rem) by (subst rem; nia).
  unfold locates. rewrite Hrem'.
  destruct (rem =? 0) eqn:E0.
  - apply Z.eqb_eq in E0. cbn [shr_record_of_loc]. rewrite Hshape. cbn [shr_m orb].
    split; [done|]. split; [nia|].
    destruct (m mod 2 =? 0) eqn:Eb; cbn [negb loc_of_shr_record].
    + apply Z.eqb_eq in Eb. rewrite Eb, E0. done.
    + apply Z.eqb_neq in Eb. assert (m mod 2 = 1) as -> by lia. rewrite E0.
      replace (1 * D + 0 =? 0) with false by (symmetry; apply Z.eqb_neq; lia).
      f_equal. symmetry. apply Z.compare_eq_iff. lia.
  - apply Z.eqb_neq in E0.
    assert (Hst : ∀ c, ∃ r s, shr_record_of_loc m (loc_Inexact c) = Build_shr_record m r s
                              ∧ r || s = true).
    { intros []; eexists _, _; (split; [reflexivity|done]). }
    destruct (Hst (2 * rem ?= D)) as (r & s & -> & Hrs).
    rewrite Hshape, Hrs. cbn [shr_m]. split; [done|]. split; [nia|].
    destruct (m mod 2 =? 0) eqn:Eb; cbn [negb loc_of_shr_record].
    + apply Z.eqb_eq in Eb. rewrite Eb.
      replace (0 * D + rem =? 0) with false by (symmetry; apply Z.eqb_neq; lia).
      f_equal. symmetry. apply Z.compare_lt_iff. lia.
    + apply Z.eqb_neq in Eb. assert (m mod 2 = 1) as -> by lia.
      replace (1 * D + rem =? 0) with false by (symmetry; apply Z.eqb_neq; lia).
      f_equal. symmetry. apply Z.compare_gt_iff. lia.
Qed.

(** Rounding to nearest picks a neighbour at most half a unit away. *)
Lemma round_nearest_even_locates N D m l :
  0 < D → locates N D m l →
  let m' := round_nearest_even m l in
  m ≤ m' ≤ m + 1 ∧ 2 * Z.abs (N - m' * D) ≤ D.
Proof.
  intros HD [Hrem ->]. cbv zeta. set (rem := N - m * D) in *.
  unfold round_nearest_even.
  destruct (rem =? 0) eqn:E0.
  - apply Z.eqb_eq in E0. split; [lia|]. fold rem. lia.
  - apply Z.eqb_neq in E0.
    destruct (Z.compare_spec (2 * rem) D); [destruct (Z.even m)| |]; (split; [lia|]).
    all: try (fold rem; lia).
    all: replace (N - (m + 1) * D) with (rem - D) by (subst rem; lia); lia.
Qed.

Lemma shr_record_of_loc_m m l :
  shr_m (shr_record_of_loc m l) = m ∧ loc_of_shr_record (shr_record_of_loc m l) = l.
Proof. by destruct l as [|[]]. Qed.

(** A mantissa of 53 bits stays, one of 54 bits loses its last bit. *)
Lemma shr_fexp_normal m e l :
  2 ^ 52 ≤ m < 2 ^ 54 → -1000 ≤ e →
  shr_fexp prec emax m e l =
    if m <? 2 ^ 53 then (shr_record_of_loc m l, e)
    else (shr_1 (shr_record_of_loc m l), e + 1).
Proof.
  intros Hm He. unfold shr_fexp.
  destruct (m <? 2 ^ 53) eqn:E.
  - apply Z.ltb_lt in E. rewrite (Zdigits2_unique m 53) by lia.
    unfold fexp, SpecFloat.emin, prec, emax.
    replace (Z.max (53 + e - 53) (3 - 1024 - 53) - e) with 0 by lia. done.
  - apply Z.ltb_ge in E. rewrite (Zdigits2_unique m 54) by lia.
    unfold fexp, SpecFloat.emin, prec, emax.
    replace (Z.max (54 + e - 53) (3 - 1024 - 53) - e) with 1 by lia. done.
Qed.

Lemma binary_round_aux_nearest s N D mx ex lx :
  0 < D → 2 ^ 52 ≤ mx < 2 ^ 54 → -1000 ≤ ex ≤ 900 → locates N D mx lx →
  ∃ m e k,
    binary_round_aux prec emax s mx ex lx = S754_finite s m e ∧
    2 ^ 52 ≤ Zpos m < 2 ^ 53 ∧ 0 ≤ k ≤ 2 ∧ e = ex + k ∧
    2 * Z.abs (N - Zpos m * (D * 2 ^ k)) ≤ D * 2 ^ k.
Proof.
  intros HD Hmx Hex Hloc.
  (* the mantissa and the resolution after the first shift *)
  assert (Hfirst : ∃ mrs1 e1 j,
            shr_fexp prec emax mx ex lx = (mrs1, e1) ∧ 0 ≤ j ≤ 1 ∧ e1 = ex + j ∧
            2 ^ 52 ≤ shr_m mrs1 < 2 ^ 53 ∧
            locates N (D * 2 ^ j) (shr_m mrs1) (loc_of_shr_record mrs1)).
  { rewrite shr_fexp_normal by lia. destruct (mx <? 2 ^ 53) eqn:E.
    - apply Z.ltb_lt in E. eexists _, _, 0. split; [done|].
      destruct (shr_record_of_loc_m mx lx) as [-> ->].
      rewrite Z.pow_0_r, Z.mul_1_r.
      split; [lia|]. split; [lia|]. split; [lia|]. exact Hloc.
    - apply Z.ltb_ge in E. eexists _, _, 1. split; [done|].
      destruct (shr_1_locates N D mx lx HD ltac:(lia) Hloc) as [-> Hl].
      change (2 ^ 1) with 2. rewrite (Z.mul_comm D 2).
      assert (2 ^ 52 ≤ mx / 2) by (apply Z.div_le_lower_bound; lia).
      assert (mx / 2 < 2 ^ 53) by (apply Z.div_lt_upper_bound; lia).
      split; [lia|]. split; [lia|]. split; [lia|]. exact Hl. }
  destruct Hfirst as (mrs1 & e1 & j & Hshr1 & Hj & -> & Hm1 & Hloc1).
  assert (HDj : 0 < D * 2 ^ j) by (pose proof (Z.pow_pos_nonneg 2 j); nia).
  destruct (round_nearest_even_locates _ _ _ _ HDj Hloc1) as [Hr Hnear].
  set (m1 := round_nearest_even (shr_m mrs1) (loc_of_shr_record mrs1)) in *.
  unfold binary_round_aux. rewrite Hshr1. fold m1.
  rewrite shr_fexp_normal by lia.
  destruct (m1 <? 2 ^ 53) eqn:E.
  - apply Z.ltb_lt in E. cbn [shr_record_of_loc shr_m].
    destruct m1 as [|p|p] eqn:Ep; try lia.
    replace (ex + j <=? emax - prec) with true
      by (symmetry; apply Z.leb_le; unfold emax, prec; lia).
    exists p, (ex + j), j. repeat split; try lia.
  - apply Z.ltb_ge in E. assert (m1 = 2 ^ 53) as Hm by lia.
    rewrite Hm in *. change (shr_m (shr_1 (shr_record_of_loc (2 ^ 53) loc_Exact)))
      with (Z.pos (Z.to_pos (2 ^ 52))).
    replace (ex + j + 1 <=? emax - prec) with true
      by (symmetry; apply Z.leb_le; unfold emax, prec; lia).
    exists (Z.to_pos (2 ^ 52)), (ex + j + 1), (j + 1). repeat split; try lia.
    rewrite Z.pow_add_r by lia. change (Z.pos (Z.to_pos (2 ^ 52))) with (2 ^ 52).
    change (2 ^ 1) with 2.
    replace (N - 2 ^ 52 * (D * (2 ^ j * 2))) with (N - 2 ^ 53 * (D * 2 ^ j))
      by (change (2 ^ 53) with (2 ^ 52 * 2); lia).
    lia.
Qed.

Lemma SFdiv_nearest_raw s (a b : positive) :
  (a ≤ b)%positive → Zpos b < 2 ^ 56 →
  ∃ m e,
    SFdiv prec emax (S754_finite s a 0) (S754_finite false b 0) = S754_finite s m e ∧
    2 ^ 52 ≤ Zpos m < 2 ^ 53 ∧ e ≤ -51 ∧
    2 * Z.abs (Zpos a * 2 ^ (- e) - Zpos m * Zpos b) ≤ Zpos b.
Proof.
  intros Hab Hb. unfold SFdiv, SFdiv_core_binary. cbn [Zdigits2].
  pose proof (digits2_pos_bounds a) as Ha'. pose proof (digits2_pos_bounds b) as Hb'.
  set (d1 := Z.pos (digits2_pos a)) in *. set (d2 := Z.pos (digits2_pos b)) in *.
  assert (0 < d1) by (subst d1; lia). assert (0 < d2) by (subst d2; lia).
  assert (d1 ≤ d2).
  { destruct (Z_lt_le_dec d2 d1); [|done].
    assert (2 ^ d2 ≤ 2 ^ (d1 - 1)) by (apply Z.pow_le_mono_r; lia). lia. }
  assert (d2 ≤ 56).
  { destruct (Z_lt_le_dec 56 d2); [|done].
    assert (2 ^ 56 ≤ 2 ^ (d2 - 1)) by (apply Z.pow_le_mono_r; lia). lia. }
  replace (Z.min (fexp prec emax (d1 + 0 - (d2 + 0))) (0 - 0)) with (d1 - d2 - 53)
    by (unfold fexp, SpecFloat.emin, prec, emax; lia).
  replace (0 - 0 - (d1 - d2 - 53)) with (53 + d2 - d1) by lia.
  remember (53 + d2 - d1) as sh eqn:Esh.
  assert (Hsh : 0 < sh) by lia.
  set (m' := match sh with Z0 => Z.pos a | Zpos _ => _ | Zneg _ => _ end).
  assert (Hm' : m' = Z.pos a * 2 ^ sh).
  { subst m'. clear Esh. destruct sh as [|p|p]; try lia.
    rewrite Z.shiftl_mul_pow2; lia. }
  rewrite Hm'. clear m' Hm'.
  pose proof (Z_div_mod (Z.pos a * 2 ^ sh) (Z.pos b) eq_refl) as Hdiv.
  destruct (Z.div_eucl (Z.pos a * 2 ^ sh) (Z.pos b)) as [q r]. destruct Hdiv as [Hqr Hr].
  replace (xorb s false) with s by (by destruct s).
  (* the quotient has 53 or 54 bits *)
  assert (Hlow : 2 ^ 52 * 2 ^ d2 ≤ Z.pos a * 2 ^ sh).
  { rewrite <- Z.pow_add_r by lia. replace (52 + d2) with ((d1 - 1) + sh) by lia.
    rewrite Z.pow_add_r by lia. apply Z.mul_le_mono_nonneg_r; [|lia].
    apply Z.pow_nonneg; lia. }
  assert (Hhigh : Z.pos a * 2 ^ sh < 2 ^ 54 * 2 ^ (d2 - 1)).
  { rewrite <- Z.pow_add_r by lia. replace (54 + (d2 - 1)) with (d1 + sh) by lia.
    rewrite Z.pow_add_r by lia. apply Z.mul_lt_mono_pos_r; [|lia].
    apply Z.pow_pos_nonneg; lia. }
  assert (Hq : 2 ^ 52 ≤ q < 2 ^ 54) by nia.
  destruct (binary_round_aux_nearest s (Z.pos a * 2 ^ sh) (Z.pos b) q (d1 - d2 - 53)
              (new_location (Z.pos b) r))
    as (m & e & k & -> & Hm & Hk & -> & Hnear); [lia|done|lia| |].
  { apply new_location_locates; [lia|done|lia]. }
  exists m, (d1 - d2 - 53 + k). split; [done|]. split; [done|]. split; [lia|].
  replace (- (d1 - d2 - 53 + k)) with (sh - k) by lia.
  assert (Hsplit : 2 ^ sh = 2 ^ (sh - k) * 2 ^ k).
  { rewrite <- Z.pow_add_r by lia. f_equal. lia. }
  rewrite Hsplit in Hnear.
  pose proof (Z.pow_pos_nonneg 2 k ltac:(lia) ltac:(lia)) as H2k.
  set (X := Z.pos a * 2 ^ (sh - k) - Z.pos m * Z.pos b).
  replace (Z.pos a * (2 ^ (sh - k) * 2 ^ k) - Z.pos m * (Z.pos b * 2 ^ k))
    with (X * 2 ^ k) in Hnear by (subst X; lia).
  rewrite Z.abs_mul, (Z.abs_eq (2 ^ k)) in Hnear by lia. nia.
Qed.

(** The quotient of two integers [a <= b < 2^56]: a normal double, at most
    half a unit in the last place away from [a / b]. *)
Lemma SFdiv_nearest s (a b : positive) :
  (a ≤ b)%positive → Zpos b < 2 ^ 56 →
  ∃ m e,
    SFdiv prec emax (S754_finite s a 0) (S754_finite false b 0) = S754_finite s m e ∧
    2 ^ 52 ≤ Zpos m < 2 ^ 53 ∧ e ≤ -52 ∧
    2 * Z.abs (Zpos a * 2 ^ (- e) - Zpos m * Zpos b) ≤ Zpos b.
Proof.
  intros Hab Hb.
  destruct (SFdiv_nearest_raw s a b Hab Hb) as (m & e & Heq & Hm & He & Hnear).
  exists m, e. split; [done|]. split; [done|]. split; [|done].
  destruct (SFdiv_le_one s a b Hab) as [Hz|(m' & e' & Heq' & He' & Hm')];
    rewrite Heq in *; [done|]. injection Heq' as <- <-.
  destruct (Z_lt_le_dec (-52) e); [|done].
  assert (2 ^ (- e) ≤ 2 ^ 51) by (apply Z.pow_le_mono_r; lia). lia.
Qed.

(** ** Comparing with the literal 0.2 *)

Lemma SFltb_positive m1 e1 m2 e2 :
  SFltb (S754_finite false m1 e1) (S754_finite false m2 e2) = true ↔
  e1 < e2 ∨ (e1 = e2 ∧ Zpos m1 < Zpos m2).
Proof.
  unfold SFltb, SFcompare. change (Pos.compare_cont Eq m1 m2) with (m1 ?= m2)%positive.
  destruct (Z.compare_spec e1 e2); [|split; [lia|done]|split; [done|lia]].
  destruct (Pos.compare_spec m1 m2); split; try done; lia.
Qed.

Lemma SFltb_negative m1 e1 m2 e2 :
  SFltb (S754_finite true m1 e1) (S754_finite true m2 e2) = true ↔
  e2 < e1 ∨ (e1 = e2 ∧ Zpos m2 < Zpos m1).
Proof.
  unfold SFltb, SFcompare. change (Pos.compare_cont Eq m1 m2) with (m1 ?= m2)%positive.
  destruct (Z.compare_spec e1 e2); [|split; [done|lia]|split; [lia|done]].
  destruct (Pos.compare_spec m1 m2); split; simpl; try done; lia.
Qed.

(** A normal double nearest to [a / b] is above the double [0.2] exactly when
    [a / b] is above one fifth, as long as [9 * b < 2^56]. *)
Lemma above_one_fifth a b m e :
  0 < a ≤ b → 9 * b < 2 ^ 56 → 2 ^ 52 ≤ m < 2 ^ 53 → e ≤ -52 →
  2 * Z.abs (a * 2 ^ (- e) - m * b) ≤ b →
  (-55 < e ∨ (-55 = e ∧ 7205759403792794 < m)) ↔ b < 5 * a.
Proof.
  intros Hab Hb Hm He Hnear.
  assert (HE : 0 < 2 ^ (- e)) by (apply Z.pow_pos_nonneg; lia).
  set (E := 2 ^ (- e)) in *.
  assert (Hmb : 2 ^ 52 * b ≤ m * b < 2 ^ 53 * b) by nia.
  split.
  - intros Habove. destruct (Z_lt_le_dec b (5 * a)) as [|Hle]; [done|exfalso].
    destruct Habove as [Hlt|[<- Hgt]].
    + assert (E ≤ 2 ^ 54) by (apply Z.pow_le_mono_r; lia).
      assert (a * E ≤ a * 2 ^ 54) by nia. lia.
    + change E with (2 ^ 55) in *.
      assert (7205759403792795 * b ≤ m * b) by nia. lia.
  - intros Hfifth. destruct (Z_lt_le_dec (-55) e) as [|Hle]; [by left|right].
    assert (e = -55 ∨ e ≤ -56) as [->|Hlow] by lia.
    + split; [done|]. change E with (2 ^ 55) in *.
      destruct (Z_lt_le_dec 7205759403792794 m) as [|Hm']; [done|exfalso].
      assert (m * b ≤ 7205759403792794 * b) by nia. lia.
    + exfalso. assert (2 ^ 56 ≤ E) by (apply Z.pow_le_mono_r; lia).
      assert (a * 2 ^ 56 ≤ a * E) by nia. lia.
Qed.

Lemma label_of_quotient a b :
  0 < b → Z.abs a ≤ b → 9 * b < 2 ^ 56 →
  label_of_score (nearest_quot a b) =
    if b <? 5 * a then Positive else if 5 * a <? - b then Negative else Neutral.
Proof.
  intros Hb Hab Hbound. unfold label_of_score, float_lt, float_neg, nearest_quot.
  rewrite literal_0_2. destruct b as [|b|b]; try lia.
  destruct a as [|a|a]; cbn [float_of_int].
  - by destruct (Z.pos b <? 5 * 0) eqn:E; [apply Z.ltb_lt in E; lia|].
  - destruct (SFdiv_nearest false a b) as (m & e & -> & Hm & He & Hnear); [lia|lia|].
    pose proof (above_one_fifth (Z.pos a) (Z.pos b) (Z.pos m) e
                  ltac:(lia) Hbound Hm He Hnear) as Hiff.
    destruct (Z.pos b <? 5 * Z.pos a) eqn:E.
    + apply Z.ltb_lt in E. apply Hiff in E.
      by apply SFltb_positive in E as ->.
    + apply Z.ltb_ge in E.
      destruct (SFltb _ (S754_finite false m e)) eqn:E1.
      { apply SFltb_positive, Hiff in E1. lia. }
      by destruct (5 * Z.pos a <? - Z.pos b) eqn:E2; [apply Z.ltb_lt in E2; lia|].
  - destruct (SFdiv_nearest true a b) as (m & e & -> & Hm & He & Hnear); [lia|lia|].
    pose proof (above_one_fifth (Z.pos a) (Z.pos b) (Z.pos m) e
                  ltac:(lia) Hbound Hm He Hnear) as Hiff.
    replace (Z.pos b <? 5 * Z.neg a) with false by (symmetry; apply Z.ltb_ge; lia).
    cbn [SFltb SFcompare SFopp negb].
    destruct (5 * Z.neg a <? - Z.pos b) eqn:E.
    + apply Z.ltb_lt in E. assert (Z.pos b < 5 * Z.pos a) as E' by lia.
      apply Hiff in E'. change (S754_finite true m e) with (S754_finite true m e).
      assert (SFltb (S754_finite true m e) (S754_finite true 7205759403792794 (-55)) = true)
        as Hlt by (apply SFltb_negative; lia).
      unfold SFltb, SFcompare in Hlt. by rewrite Hlt.
    + apply Z.ltb_ge in E.
      destruct (SFltb (S754_finite true m e) (S754_finite true 7205759403792794 (-55))) eqn:E1.
      { apply SFltb_negative in E1. assert (Z.pos b < 5 * Z.pos a) by (apply Hiff; lia). lia. }
      unfold SFltb, SFcompare in E1. by rewrite E1.
Qed.

(** ** Away from ties the double rounds like the exact quotient *)

Lemma round_half_even_strict a b :
  0 < b → 2 * (a mod b) ≠ b → 2 * Z.abs (a - round_half_even a b * b) < b.
Proof.
  intros Hb Htie. unfold round_half_even.
  pose proof (Z.div_mod a b ltac:(lia)) as Hdiv.
  pose proof (Z.mod_pos_bound a b Hb) as Hmod.
  destruct (Z.compare_spec (2 * (a mod b)) b); [done| |]; lia.
Qed.

Lemma round_half_even_opp a b :
  0 < b → round_half_even (- a) b = - round_half_even a b.
Proof.
  intros Hb. apply (nearest_even_unique (- a) b); [done|apply round_half_even_nearest; lia|].
  destruct (round_half_even_nearest a b Hb) as [H1 H2].
  unfold nearest_even.
  replace (- a - - round_half_even a b * b) with (- (a - round_half_even a b * b)) by lia.
  rewrite Z.abs_opp, Z.even_opp. done.
Qed.

Lemma round_units_exact a b m e :
  0 < a ≤ b → 100 * b < 2 ^ 52 → 2 ^ 52 ≤ Zpos m < 2 ^ 53 → e ≤ -52 →
  2 * Z.abs (a * 2 ^ (- e) - Zpos m * b) ≤ b →
  2 * ((100 * a) mod b) ≠ b →
  round_units m e 2 = round_half_even (100 * a) b.
Proof.
  intros Hab Hb Hm He Hnear Htie.
  assert (Hunits : round_units m e 2 = round_half_even (Z.pos m * 100) (2 ^ (- e))).
  { destruct e; try lia. done. }
  rewrite Hunits.
  assert (H52 : 2 ^ 52 ≤ 2 ^ (- e)) by (apply Z.pow_le_mono_r; lia).
  set (E := 2 ^ (- e)) in *. set (h := round_half_even (100 * a) b).
  symmetry. apply (nearest_even_unique (Z.pos m * 100) E); [lia| |apply round_half_even_nearest; lia].
  pose proof (round_half_even_strict (100 * a) b ltac:(lia) Htie) as Hh. fold h in Hh.
  set (w := 100 * a - h * b) in *.
  assert (Hw : 2 * Z.abs (w * E) ≤ (b - 1) * E).
  { rewrite Z.abs_mul, (Z.abs_eq E) by lia. nia. }
  assert (Hkey : b * (Z.pos m * 100 - h * E) = 100 * (Z.pos m * b - a * E) + w * E)
    by (subst w; lia).
  assert (Hlt : 2 * Z.abs (b * (Z.pos m * 100 - h * E)) < b * E).
  { rewrite Hkey. nia. }
  rewrite Z.abs_mul, (Z.abs_eq b) in Hlt by lia.
  assert (2 * Z.abs (Z.pos m * 100 - h * E) < E) by nia.
  split; lia.
Qed.

Lemma signed_decimal_decimal h k :
  h ≠ 0 → signed_decimal (h <? 0) (Z.abs h) k = decimal h k.
Proof. intros Hh. by destruct h. Qed.

Lemma py_truediv_nearest a b x : py_truediv a b = Ok x → x = nearest_quot a b.
Proof.
  unfold py_truediv. destruct (decide (b = 0)); [done|].
  destruct (nearest_quot a b); by intros [= <-].
Qed.

Lemma py_round_sign s x : at_most_one s x → at_most_one s (py_round x 2).
Proof.
  intros [->|(m & e & -> & He & Hm)]; [by left|].
  pose proof (round_units_bounds m e He Hm) as Hb.
  cbn [py_round]. destruct (round_units m e 2) as [|h|h]; [by left| |lia].
  cbn [signed_decimal]. change (float_of_int (10 ^ 2)) with (S754_finite false 100 0).
  apply SFdiv_le_one. lia.
Qed.

(** Away from ties, rounding the double quotient is rounding the exact one. *)
Lemma py_round_quotient_exact a b :
  0 < b → Z.abs a ≤ b → 100 * b < 2 ^ 52 →
  2 * ((100 * Z.abs a) mod b) ≠ b →
  py_round (nearest_quot a b) 2
    = signed_decimal (a <? 0) (Z.abs (round_half_even (100 * a) b)) 2 ∧
  (round_half_even (100 * a) b ≠ 0 → (a <? 0) = (round_half_even (100 * a) b <? 0)).
Proof.
  intros Hb Hab Hbound Htie. unfold nearest_quot.
  destruct b as [|t|t]; try lia.
  destruct a as [|d|d]; cbn [float_of_int Z.ltb Z.compare].
  - cbn [SFdiv py_round xorb]. rewrite Z.mul_0_r. done.
  - destruct (SFdiv_nearest false d t) as (m & e & -> & Hm & He & Hnear); [lia|lia|].
    cbn [py_round].
    rewrite (round_units_exact (Z.pos d) (Z.pos t)) by (try done; lia).
    pose proof (round_half_even_bounds (100 * Z.pos d) (Z.pos t) 100 ltac:(lia) ltac:(lia)).
    rewrite Z.abs_eq by lia. split; [done|]. intros ?. symmetry. apply Z.ltb_ge. lia.
  - destruct (SFdiv_nearest true d t) as (m & e & -> & Hm & He & Hnear); [lia|lia|].
    cbn [py_round].
    rewrite (round_units_exact (Z.pos d) (Z.pos t)) by (try done; lia).
    pose proof (round_half_even_bounds (100 * Z.pos d) (Z.pos t) 100 ltac:(lia) ltac:(lia)).
    replace (100 * Z.neg d) with (- (100 * Z.pos d)) by lia.
    rewrite round_half_even_opp, Z.abs_opp, Z.abs_eq by lia.
    split; [done|]. intros ?. symmetry. apply Z.ltb_lt. lia.
Qed.

Section ScorerCounts.
Context `{UnicodeDB}.

Lemma counts_nonneg text : 0 ≤ positive_count text ∧ 0 ≤ negative_count text.
Proof. split; apply count_in_nonneg. Qed.

(** The quotient the scorer computes when there is a hit. *)
Lemma quotient_is_nearest text :
  let p := positive_count text in
  let n := negative_count text in
  p + n ≠ 0 →
  analyze_sentiment (PStr text) =
    Ok (label_of_score (nearest_quot (p - n) (p + n)),
        py_round (nearest_quot (p - n) (p + n)) 2) ∧
  at_most_one (p - n <? 0) (nearest_quot (p - n) (p + n)).
Proof.
  intros p n Hpn. rewrite analyze_sentiment_str. cbv zeta. fold p n.
  destruct (decide (p + n = 0)); [done|].
  destruct (quotient_at_most_one text Hpn) as (x & Hx & Hone). fold p n in Hx, Hone.
  rewrite Hx. apply py_truediv_nearest in Hx as ->. done.
Qed.
End ScorerCounts.

Section CountsDecide.
Context `{UnicodeDB}.

Lemma analyze_sentiment_label text :
  let p := positive_count text in
  let n := negative_count text in
  9 * (p + n) < 2 ^ 56 →
  ∃ score, analyze_sentiment (PStr text) = Ok (label_of_counts p n, score).
Proof.
  intros p n Hbound. destruct (counts_nonneg text) as [Hp Hn]. fold p n in Hp, Hn.
  destruct (decide (p + n = 0)) as [E|E].
  - rewrite analyze_sentiment_str. cbv zeta. fold p n.
    destruct (decide (p + n = 0)); [|done]. eexists. f_equal. f_equal.
    unfold label_of_counts.
    destruct (3 * n <? 2 * p) eqn:E1; [apply Z.ltb_lt in E1; lia|].
    by destruct (3 * p <? 2 * n) eqn:E2; [apply Z.ltb_lt in E2; lia|].
  - destruct (quotient_is_nearest text E) as [-> _]. fold p n.
    eexists. f_equal. f_equal. rewrite label_of_quotient by lia.
    unfold label_of_counts.
    destruct (3 * n <? 2 * p) eqn:E1, (p + n <? 5 * (p - n)) eqn:E2;
      try apply Z.ltb_lt in E1; try apply Z.ltb_lt in E2;
      try apply Z.ltb_ge in E1; try apply Z.ltb_ge in E2; try lia; [done|].
    destruct (3 * p <? 2 * n) eqn:E3, (5 * (p - n) <? - (p + n)) eqn:E4;
      try apply Z.ltb_lt in E3; try apply Z.ltb_lt in E4;
      try apply Z.ltb_ge in E3; try apply Z.ltb_ge in E4; try lia; done.
Qed.
End CountsDecide.

(** X1. With fewer than 2^56 / 9 lexicon hits the label is decided by the
    two counts alone: positive when [2 p > 3 n], negative when [2 n > 3 p],
    neutral otherwise. *)
Theorem label_is_decided_by_counts `{UnicodeDB} (text : pystr) :
  let p := positive_count text in
  let n := negative_count text in
  9 * (p + n) < 2 ^ 56 →
  ∃ score, analyze_sentiment (PStr text) = Ok (label_of_counts p n, score).
Proof. apply analyze_sentiment_label. Qed.

Lemma label_is_decided_by_counts_50_33 :
  9 * (@positive_count ascii_db text_50_33 + @negative_count ascii_db text_50_33) < 2 ^ 56 ∧
  label_of_counts (@positive_count ascii_db text_50_33)
                  (@negative_count ascii_db text_50_33) = Positive ∧
  ∃ score, @analyze_sentiment ascii_db (PStr text_50_33)
           = Ok (label_of_counts (@positive_count ascii_db text_50_33)
                                 (@negative_count ascii_db text_50_33), score).
Proof.
  split; [vm_compute; reflexivity|]. split; [vm_compute; reflexivity|].
  apply (@label_is_decided_by_counts ascii_db text_50_33). vm_compute. reflexivity.
Defined.

(** X2. With fewer than 2^52 / 100 lexicon hits, and unless the exact
    quotient lies halfway between two hundredths, the score is the exact
    quotient [(p - n) / (p + n)] rounded to the nearest hundredth (as the
    nearest double, a zero result keeping the sign of [p - n]). *)
Theorem score_is_exact_quotient_rounded `{UnicodeDB} (text : pystr) :
  let p := positive_count text in
  let n := negative_count text in
  0 < p + n → 100 * (p + n) < 2 ^ 52 →
  2 * ((100 * Z.abs (p - n)) mod (p + n)) ≠ p + n →
  ∃ sentiment score,
    analyze_sentiment (PStr text) = Ok (sentiment, score) ∧
    score = signed_decimal (p <? n) (Z.abs (exact_hundredths p n)) 2 ∧
    (exact_hundredths p n ≠ 0 → score = decimal (exact_hundredths p n) 2).
Proof.
  intros p n Hpn Hbound Htie. destruct (counts_nonneg text) as [Hp Hn]. fold p n in Hp, Hn.
  assert (E : p + n ≠ 0) by lia.
  destruct (quotient_is_nearest text E) as [-> _]. fold p n.
  eexists _, _. split; [done|].
  destruct (py_round_quotient_exact (p - n) (p + n)) as [Hscore Hsign]; [lia..|done|].
  replace (p <? n) with (p - n <? 0)
    by (destruct (Z.ltb_spec (p - n) 0), (Z.ltb_spec p n); lia || done).
  fold (exact_hundredths p n) in Hscore, Hsign. rewrite Hscore. split; [done|].
  intros Hne. rewrite (Hsign Hne). by apply signed_decimal_decimal.
Qed.
Lemma score_is_exact_quotient_rounded_50_33 :
  let p := @positive_count ascii_db text_50_33 in
  let n := @negative_count ascii_db text_50_33 in
  (0 < p + n ∧ 100 * (p + n) < 2 ^ 52 ∧
   2 * ((100 * Z.abs (p - n)) mod (p + n)) ≠ p + n) ∧
  exact_hundredths p n = 20 ∧
  ∃ sentiment score,
    @analyze_sentiment ascii_db (PStr text_50_33) = Ok (sentiment, score) ∧
    score = signed_decimal (p <? n) (Z.abs (exact_hundredths p n)) 2 ∧
    (exact_hundredths p n ≠ 0 → score = decimal (exact_hundredths p n) 2).
Proof.
  cbv zeta. split; [|split; [vm_compute; reflexivity|]].
  - split; [vm_compute; reflexivity|]. split; [vm_compute; reflexivity|].
    vm_compute. discriminate.
  - apply (@score_is_exact_quotient_rounded ascii_db text_50_33).
    + vm_compute. reflexivity.
    + vm_compute. reflexivity.
    + vm_compute. discriminate.
Defined.

(** ** Signs *)

Lemma at_most_one_cases s x :
  at_most_one s x → x = S754_zero s ∨ ∃ m e, x = S754_finite s m e.
Proof. intros [->|(m & e & -> & _)]; eauto. Qed.

(** A quotient that is not positive is not above 0.2, one that is not
    negative is not below -0.2. *)
Lemma label_of_score_sign s x :
  at_most_one s x →
  (s = true → label_of_score x ≠ Positive) ∧
  (s = false → label_of_score x ≠ Negative) ∧
  (x = S754_zero s → label_of_score x = Neutral).
Proof.
  intros Hx. unfold label_of_score, float_lt, float_neg. rewrite literal_0_2.
  destruct (at_most_one_cases s x Hx) as [->|(m & e & ->)].
  - by destruct s.
  - destruct s; (split; [|split]); try done; intros _.
    + cbn [SFltb SFcompare]. by destruct (SFltb _ _).
    + by destruct (SFltb _ (S754_finite false m e)).
Qed.

Lemma float_le_zero_sign s x :
  at_most_one s x →
  (s = false → float_le (S754_zero false) x = true) ∧
  (s = true → float_le x (S754_zero false) = true).
Proof.
  intros Hx. destruct (at_most_one_cases s x Hx) as [->|(m & e & ->)]; by destruct s.
Qed.

Lemma majority_of_quotient p n :
  0 ≤ p → 0 ≤ n → p + n ≠ 0 →
  let x := nearest_quot (p - n) (p + n) in
  (label_of_score x = Positive → n < p) ∧
  (label_of_score x = Negative → p < n) ∧
  (p = n → label_of_score x = Neutral ∧ py_round x 2 = S754_zero false) ∧
  (n ≤ p → float_le (S754_zero false) (py_round x 2) = true) ∧
  (p ≤ n → float_le (py_round x 2) (S754_zero false) = true).
Proof.
  intros Hp Hn E x.
  assert (Hone : at_most_one (p - n <? 0) x)
    by (apply nearest_quot_at_most_one; lia).
  assert (Hdiag : p = n → x = S754_zero false).
  { intros ->. subst x. rewrite Z.sub_diag. unfold nearest_quot.
    destruct (n + n) as [|t|t] eqn:Et; try lia; done. }
  destruct (label_of_score_sign _ _ Hone) as (Hpos & Hneg & Hzero).
  destruct (float_le_zero_sign _ _ (py_round_sign _ _ Hone)) as [Hle Hge].
  split; [|split; [|split; [|split]]].
  - intros Hl. destruct (Z.ltb_spec (p - n) 0) as [Hlt|Hge0].
    { by destruct (Hpos eq_refl). }
    destruct (decide (p = n)) as [Heq|]; [|lia].
    specialize (Hdiag Heq). rewrite Hdiag in Hl. done.
  - intros Hl. destruct (Z.ltb_spec (p - n) 0) as [Hlt|Hge0]; [lia|].
    by destruct (Hneg eq_refl).
  - intros Heq. by rewrite (Hdiag Heq).
  - intros Hnp. apply Hle. apply Z.ltb_ge. lia.
  - intros Hpn. destruct (decide (p = n)) as [Heq|].
    + by rewrite (Hdiag Heq).
    + apply Hge. apply Z.ltb_lt. lia.
Qed.

(** X3. The label never contradicts the counts, whatever their size: positive
    only when the positive hits are in the majority, negative only when the
    negative hits are; with equal counts the result is (neutral, 0.0); and
    the score never has the sign of the minority. *)
Theorem label_and_sign_follow_the_majority `{UnicodeDB} (text : pystr) :
  let p := positive_count text in
  let n := negative_count text in
  ∃ sentiment score,
    analyze_sentiment (PStr text) = Ok (sentiment, score) ∧
    (sentiment = Positive → n < p) ∧
    (sentiment = Negative → p < n) ∧
    (p = n → sentiment = Neutral ∧ score = S754_zero false) ∧
    (n ≤ p → float_le (S754_zero false) score = true) ∧
    (p ≤ n → float_le score (S754_zero false) = true).
Proof.
  intros p n. destruct (counts_nonneg text) as [Hp Hn]. fold p n in Hp, Hn.
  destruct (decide (p + n = 0)) as [E|E].
  - rewrite analyze_sentiment_str. cbv zeta. fold p n.
    destruct (decide (p + n = 0)); [|done].
    exists Neutral, (S754_zero false). repeat split; done.
  - destruct (quotient_is_nearest text E) as [-> _]. fold p n.
    eexists _, _. split; [done|]. by apply majority_of_quotient.
Qed.

(** ** Mirror images *)

Lemma binary_round_aux_opp sx mx ex lx :
  binary_round_aux prec emax (negb sx) mx ex lx
    = SFopp (binary_round_aux prec emax sx mx ex lx).
Proof.
  unfold binary_round_aux.
  destruct (shr_fexp prec emax mx ex lx) as [mrs1 e1].
  destruct (shr_fexp prec emax _ e1 loc_Exact) as [mrs2 e2].
  destruct (shr_m mrs2); [done| |done]. by destruct (e2 <=? emax - prec).
Qed.

Lemma SFdiv_opp s a b :
  SFdiv prec emax (S754_finite (negb s) a 0) (S754_finite false b 0)
    = SFopp (SFdiv prec emax (S754_finite s a 0) (S754_finite false b 0)).
Proof.
  unfold SFdiv. destruct (SFdiv_core_binary _ _ _ _ _ _) as [[mz ez] lz].
  rewrite !xorb_false_r. apply binary_round_aux_opp.
Qed.

Lemma nearest_quot_opp a b :
  0 < b → a ≠ 0 → nearest_quot (- a) b = SFopp (nearest_quot a b).
Proof.
  intros Hb Ha. unfold nearest_quot. destruct b as [|b|b]; try lia.
  destruct a as [|a|a]; try lia; cbn [Z.opp float_of_int].
  - apply (SFdiv_opp false).
  - rewrite (SFdiv_opp false). by destruct (SFdiv _ _ _ _) as [[]|[]| |[] ? ?].
Qed.

Lemma py_round_opp x : py_round (SFopp x) 2 = SFopp (py_round x 2).
Proof.
  destruct x as [s|s| |s m e]; try done. cbn [SFopp py_round].
  unfold signed_decimal. destruct (round_units m e 2); try done.
  change (float_of_int (10 ^ 2)) with (S754_finite false 100 0). apply SFdiv_opp.
Qed.

Lemma label_of_score_opp x : label_of_score (SFopp x) = flip (label_of_score x).
Proof.
  unfold label_of_score, float_lt, float_neg. rewrite literal_0_2.
  destruct x as [[]|[]| |[] m e]; try done; cbn [SFopp negb].
  - (* a negative double *)
    replace (SFltb (S754_finite false 7205759403792794 (-55)) (S754_finite true m e))
      with false by done.
    replace (SFltb (S754_finite false m e) (SFopp (S754_finite false 7205759403792794 (-55))))
      with false by done.
    cbn [SFopp negb].
    destruct (SFltb (S754_finite false _ _) (S754_finite false m e)) eqn:E1,
             (SFltb (S754_finite true m e) (S754_finite true _ _)) eqn:E2; try done.
    + apply SFltb_positive in E1.
      assert (SFltb (S754_finite true m e) (S754_finite true 7205759403792794 (-55)) = true)
        by (apply SFltb_negative; lia). congruence.
    + apply SFltb_negative in E2.
      assert (SFltb (S754_finite false 7205759403792794 (-55)) (S754_finite false m e) = true)
        by (apply SFltb_positive; lia). congruence.
  - (* a positive double *)
    replace (SFltb (S754_finite false 7205759403792794 (-55)) (S754_finite true m e))
      with false by done.
    replace (SFltb (S754_finite false m e) (SFopp (S754_finite false 7205759403792794 (-55))))
      with false by done.
    cbn [SFopp negb].
    destruct (SFltb (S754_finite false _ _) (S754_finite false m e)) eqn:E1,
             (SFltb (S754_finite true m e) (S754_finite true _ _)) eqn:E2; try done.
    + apply SFltb_positive in E1.
      assert (SFltb (S754_finite true m e) (S754_finite true 7205759403792794 (-55)) = true)
        by (apply SFltb_negative; lia). congruence.
    + apply SFltb_negative in E2.
      assert (SFltb (S754_finite false 7205759403792794 (-55)) (S754_finite false m e) = true)
        by (apply SFltb_positive; lia). congruence.
Qed.

(** X4. Exchanging the roles of the two lexicons mirrors the result: a text
    with [n] positive and [p] negative hits gets the opposite label and the
    negated score of a text with [p] positive and [n] negative hits
    ([p <> n]). *)
Theorem mirrored_counts_mirror_the_result `{UnicodeDB} (text text' : pystr) :
  positive_count text' = negative_count text →
  negative_count text' = positive_count text →
  positive_count text ≠ negative_count text →
  ∃ sentiment score,
    analyze_sentiment (PStr text) = Ok (sentiment, score) ∧
    analyze_sentiment (PStr text') = Ok (flip sentiment, float_neg score).
Proof.
  intros Hp Hn Hne. destruct (counts_nonneg text) as [Hp0 Hn0].
  destruct (quotient_is_nearest text) as [-> _]; [lia|].
  destruct (quotient_is_nearest text') as [-> _]; [lia|].
  rewrite Hp, Hn. eexists _, _. split; [done|].
  replace (negative_count text - positive_count text)
    with (- (positive_count text - negative_count text)) by lia.
  replace (negative_count text + positive_count text)
    with (positive_count text + negative_count text) by lia.
  rewrite nearest_quot_opp by lia.
  by rewrite label_of_score_opp, py_round_opp.
Qed.

Lemma mirrored_counts_50_33 :
  (@positive_count ascii_db text_33_50 = @negative_count ascii_db text_50_33 ∧
   @negative_count ascii_db text_33_50 = @positive_count ascii_db text_50_33 ∧
   @positive_count ascii_db text_50_33 ≠ @negative_count ascii_db text_50_33) ∧
  ∃ sentiment score,
    @analyze_sentiment ascii_db (PStr text_50_33) = Ok (sentiment, score) ∧
    @analyze_sentiment ascii_db (PStr text_33_50) = Ok (flip sentiment, float_neg score).
Proof.
  split.
  - split; [vm_compute; reflexivity|]. split; [vm_compute; reflexivity|].
    vm_compute. discriminate.
  - apply (@mirrored_counts_mirror_the_result ascii_db text_50_33 text_33_50).
    + vm_compute. reflexivity.
    + vm_compute. reflexivity.
    + vm_compute. discriminate.
Defined.

Section AnyValue.
Context `{UnicodeDB}.

Lemma analyze_sentiment_str_Ok text :
  ∃ sentiment score, analyze_sentiment (PStr text) = Ok (sentiment, score).
Proof.
  destruct (decide (positive_count text + negative_count text = 0)) as [E|E].
  - rewrite analyze_sentiment_str. cbv zeta. destruct (decide _); [|done]. eauto.
  - destruct (quotient_is_nearest text E) as [-> _]. eauto.
Qed.
End AnyValue.

(** X5. What the scorer does with a value of a parsed JSON document (None,
    a bool, an int, a float, a str, a list or a dict), the only arguments
    [main] passes, which need not be a str: a falsy one (None, False, 0,
    0.0, an empty str, list or dict) is scored (neutral, 0.0); a truthy one
    that is not a str raises AttributeError; and no other exception leaves
    the function on such a value. *)
Theorem analyze_sentiment_on_any_value `{UnicodeDB} (v : pyval) :
  (truthy v = false → analyze_sentiment v = Ok (Neutral, S754_zero false)) ∧
  (analyze_sentiment v = Raise AttributeError ↔
     truthy v = true ∧ ∀ s, v ≠ PStr s) ∧
  (∀ e, analyze_sentiment v = Raise e → e = AttributeError).
Proof.
  split; [|split].
  - intros Hv. unfold analyze_sentiment. by rewrite Hv.
  - split.
    + intros Hraise. destruct (truthy v) eqn:Hv.
      * split; [done|]. intros s ->.
        destruct (analyze_sentiment_str_Ok s) as (l & x & Hok). congruence.
      * unfold analyze_sentiment in Hraise. by rewrite Hv in Hraise.
    + intros [Hv Hstr]. unfold analyze_sentiment. rewrite Hv. cbn [negb].
      destruct v; try done. by destruct (Hstr s).
  - intros e. destruct v as [| | | |s| |];
      try (unfold analyze_sentiment; destruct (truthy _); cbn; congruence).
    destruct (analyze_sentiment_str_Ok s) as (l & x & Hok). congruence.
Qed.

(** ** More on the matches *)

Section Matches.
Context `{UnicodeDB}.

Lemma close_run_join run : mjoin (close_run run) = run.
Proof. destruct run; [done|]. simpl. by rewrite app_nil_r. Qed.

Lemma runs_from_join run s :
  mjoin (runs_from run s) = run ++ filter (λ c, is_word_char c = true) s.
Proof.
  revert run. induction s as [|c s IH]; intros run.
  - simpl. by rewrite close_run_join, app_nil_r.
  - cbn [runs_from]. rewrite filter_cons. destruct (is_word_char c) eqn:Hc.
    + rewrite IH. destruct (decide (true = true)); [|done]. by rewrite <- app_assoc.
    + rewrite join_app, close_run_join, IH.
      by destruct (decide (false = true)).
Qed.

Lemma runs_from_words run s :
  Forall (λ c, is_word_char c = true) run →
  Forall (λ w, w ≠ [] ∧ Forall (λ c, is_word_char c = true) w) (runs_from run s).
Proof.
  revert run. induction s as [|c s IH]; intros run Hrun.
  - destruct run; [constructor|]. cbn [runs_from close_run].
    constructor; [done|constructor].
  - cbn [runs_from]. destruct (is_word_char c) eqn:Hc.
    + apply IH. apply Forall_app. split; [done|]. by constructor.
    + apply Forall_app. split; [|by apply IH].
      destruct run; [constructor|]. cbn [close_run].
      constructor; [done|constructor].
Qed.

Lemma runs_from_separator run s1 c s2 :
  is_word_char c = false →
  runs_from run (s1 ++ c :: s2) = runs_from run s1 ++ runs_from [] s2.
Proof.
  intros Hc. revert run. induction s1 as [|c1 s1 IH]; intros run.
  - simpl. by rewrite Hc.
  - cbn [app runs_from]. destruct (is_word_char c1); [apply IH|].
    by rewrite IH, app_assoc.
Qed.
End Matches.

(** X6. The matches of [re.findall] are non-empty runs of word characters,
    and put together they are the word characters of the text, in order:
    nothing of a word is dropped and no separator is kept. *)
Theorem matches_are_the_word_characters `{UnicodeDB} (s : pystr) :
  Forall (λ w, w ≠ [] ∧ Forall (λ c, is_word_char c = true) w) (findall_words s) ∧
  mjoin (findall_words s) = filter (λ c, is_word_char c = true) s.
Proof.
  rewrite findall_words_maximal_runs. unfold maximal_runs. split.
  - by apply runs_from_words.
  - by rewrite runs_from_join.
Qed.

(** X7. Matching composes at a separator: the matches of [s1 + c + s2], with
    [c] outside [\w], are those of [s1] followed by those of [s2], and the
    lexicon hits add up. *)
Theorem matches_compose_at_a_separator `{UnicodeDB}
    (s1 s2 : pystr) (c : codepoint) (lexicon : gset pystr) :
  is_word_char c = false →
  findall_words (s1 ++ c :: s2) = findall_words s1 ++ findall_words s2 ∧
  count_in lexicon (findall_words (s1 ++ c :: s2)) =
    count_in lexicon (findall_words s1) + count_in lexicon (findall_words s2).
Proof.
  intros Hc.
  assert (E : findall_words (s1 ++ c :: s2) = findall_words s1 ++ findall_words s2).
  { rewrite !findall_words_maximal_runs. by apply runs_from_separator. }
  split; [done|]. rewrite E. unfold count_in. rewrite filter_app, length_app. lia.
Qed.

Lemma matches_compose_example :
  @is_word_char ascii_db 44%N = false ∧
  @findall_words ascii_db (str "so good" ++ 44%N :: str " not bad") =
    [str "so"; str "good"; str "not"; str "bad"] ∧
  @findall_words ascii_db (str "so good" ++ 44%N :: str " not bad") =
    @findall_words ascii_db (str "so good") ++ @findall_words ascii_db (str " not bad") ∧
  count_in POSITIVE_WORDS (@findall_words ascii_db (str "so good" ++ 44%N :: str " not bad")) =
    count_in POSITIVE_WORDS (@findall_words ascii_db (str "so good"))
    + count_in POSITIVE_WORDS (@findall_words ascii_db (str " not bad")).
Proof.
  split; [reflexivity|]. split; [vm_compute; reflexivity|].
  apply (@matches_compose_at_a_separator ascii_db). reflexivity.
Defined.

(** ** The lexicons *)

Lemma lexicons_disjoint word : word ∈ POSITIVE_WORDS → word ∈ NEGATIVE_WORDS → False.
Proof.
  intros Hp Hn.
  assert (Hempty : POSITIVE_WORDS ∩ NEGATIVE_WORDS = ∅) by (vm_compute; reflexivity).
  assert (word ∈ POSITIVE_WORDS ∩ NEGATIVE_WORDS) as Hin by (by apply elem_of_intersection).
  rewrite Hempty in Hin. by apply not_elem_of_empty in Hin.
Qed.

Lemma hits_le_words words :
  count_in POSITIVE_WORDS words + count_in NEGATIVE_WORDS words
    ≤ Z.of_nat (length words).
Proof.
  induction words as [|w words IH]; [done|].
  rewrite !count_in_cons. cbn [length]. rewrite Nat2Z.inj_succ.
  pose proof (lexicons_disjoint w).
  repeat case_bool_decide; try lia. tauto.
Qed.

Lemma join_length_ge (ws : list pystr) :
  Forall (λ w, w ≠ []) ws → (length ws ≤ length (mjoin ws))%nat.
Proof.
  induction 1 as [|w ws Hw _ IH]; [done|].
  simpl. rewrite length_app. destruct w; [done|]. simpl. lia.
Qed.

(** X8. No word is in both lexicons, so a token counts at most once: the
    lexicon hits [p + n] never exceed the number of tokens, which never
    exceeds the length of the lowercased text. *)
Theorem hits_are_bounded_by_the_tokens `{UnicodeDB} (text : pystr) :
  POSITIVE_WORDS ## NEGATIVE_WORDS ∧
  positive_count text + negative_count text ≤ Z.of_nat (length (words_of text)) ∧
  (length (words_of text) ≤ length (str_lower text))%nat.
Proof.
  split; [|split].
  - intros w. apply lexicons_disjoint.
  - apply hits_le_words.
  - unfold words_of. rewrite findall_words_maximal_runs. unfold maximal_runs.
    etrans; [apply join_length_ge|].
    + eapply Forall_impl; [by apply runs_from_words|]. by intros w [? _].
    + rewrite runs_from_join, app_nil_l. apply length_filter.
Qed.

Section MorePipeline.
Context `{UnicodeDB}.

Lemma analyze_sentiment_Ok_iff v :
  (∃ r, analyze_sentiment v = Ok r) ↔ scorable v.
Proof.
  split.
  - intros [r Hr]. destruct (truthy v) eqn:Hv; [|by left]. right.
    unfold analyze_sentiment in Hr. rewrite Hv in Hr. cbn [negb] in Hr.
    destruct v; try done. eauto.
  - intros [Hv|[s ->]].
    + unfold analyze_sentiment. rewrite Hv. eauto.
    + destruct (analyze_sentiment_str_Ok s) as (l & x & Hok). eauto.
Qed.

Lemma analyze_sentiment_in_unit v sentiment score :
  analyze_sentiment v = Ok (sentiment, score) → in_unit_interval score = true.
Proof.
  assert ((∃ s, v = PStr s) ∨ ∀ s, v ≠ PStr s) as [[s ->]|Hstr]
    by (destruct v; eauto).
  - rewrite analyze_sentiment_str. cbv zeta.
    destruct (decide _) as [E|E]; [by intros [= _ <-]|].
    destruct (quotient_at_most_one s E) as (x & -> & Hone).
    cbn [mbind result_bind]. intros [= _ <-].
    by destruct (py_round_at_most_one _ _ Hone).
  - unfold analyze_sentiment. destruct (truthy v); cbn [negb].
    + destruct v; try done. by destruct (Hstr s).
    + by intros [= _ <-].
Qed.

Lemma enrich_one_Ok_iff b :
  (∃ r, enrich_one b = Ok r) ↔ well_formed_bookmark b.
Proof.
  split.
  - intros [[l b'] (fields & analysis & score & -> & Hscored & Hcustom & _)%enrich_one_Ok].
    exists fields. split; [done|]. split; [|by eexists].
    apply analyze_sentiment_Ok_iff. unfold scored in Hscored. cbn in Hscored. eauto.
  - intros (fields & -> & Htext & analysis & Hcustom).
    apply analyze_sentiment_Ok_iff in Htext as [[l score] Hok].
    unfold enrich_one, enriched. cbn [py_get mbind result_bind py_mapping].
    rewrite Hok. cbn [mbind result_bind]. rewrite Hcustom. cbn. eauto.
Qed.

(** The loop on bookmarks that all succeed. *)
Lemma enrich_loop_Forall2 bookmarks rs acc counts :
  Forall2 (λ b r, enrich_one b = Ok r) bookmarks rs →
  ∃ counts', enrich_loop bookmarks acc counts = Ok (acc ++ rs.*2, counts') ∧
             ∀ l, counts' l = counts l + occurrences l rs.*1.
Proof.
  intros Hrs. revert acc counts. induction Hrs as [|b [l e] bs rs Hb _ IH]; intros acc counts.
  - exists counts. split; [by rewrite app_nil_r|]. intros l. unfold occurrences. simpl. lia.
  - rewrite enrich_loop_cons, Hb. cbn [mbind result_bind].
    destruct (IH (acc ++ [e]) (bump l counts)) as (counts' & -> & Hcounts).
    exists counts'. split; [by rewrite <- app_assoc|].
    intros l'. rewrite Hcounts. cbn [fmap list_fmap fst].
    rewrite occurrences_cons. unfold bump.
    destruct (decide (l' = l)) as [->|]; destruct (decide _); try done; lia.
Qed.

(** The loop up to the first bookmark that fails. *)
Lemma enrich_loop_first_error good b rest acc counts error :
  Forall well_formed_bookmark good → enrich_one b = Raise error →
  enrich_loop (good ++ b :: rest) acc counts = Raise error.
Proof.
  intros Hgood Hb. revert acc counts.
  induction Hgood as [|g good Hg _ IH]; intros acc counts.
  - rewrite app_nil_l, enrich_loop_cons, Hb. done.
  - apply enrich_one_Ok_iff in Hg as [[l e] Hg].
    rewrite <- app_comm_cons, enrich_loop_cons, Hg. cbn [mbind result_bind]. apply IH.
Qed.

Lemma transform_of_items doc items rs meta :
  bookmarks_of doc = Ok items →
  Forall2 (λ b r, enrich_one b = Ok r) items rs →
  default (PDict ∅) (doc !! str "metadata") = PDict meta →
  transform (Document (PDict doc)) =
    Ok (PDict (<[str "metadata" :=
                   PDict (<[str "sentimentAnalysis" := tally (counts_of rs.*1)]> meta)]>
               (<[str "bookmarks" := PList rs.*2]> doc))).
Proof.
  intros Hitems Hrs Hmeta. unfold transform.
  cbn [json_loads mbind result_bind py_get py_mapping]. fold (bookmarks_of doc).
  rewrite Hitems. cbn [mbind result_bind].
  destruct (enrich_loop_Forall2 items rs [] no_counts Hrs) as (counts' & -> & Hcounts).
  cbn [mbind result_bind]. rewrite Hmeta. cbn [mbind result_bind py_mapping].
  rewrite app_nil_l. rewrite (tally_ext counts' (counts_of rs.*1)); [done|].
  intros l. by rewrite Hcounts.
Qed.

Lemma Forall_enrich_one_Forall2 items :
  Forall well_formed_bookmark items →
  ∃ rs, Forall2 (λ b r, enrich_one b = Ok r) items rs.
Proof.
  induction 1 as [|b items Hb _ [rs IH]]; [by exists []|].
  apply enrich_one_Ok_iff in Hb as [r Hr]. exists (r :: rs). by constructor.
Qed.

(** Enriching an enriched bookmark changes nothing. *)
Lemma enrich_one_again b sentiment b' :
  enrich_one b = Ok (sentiment, b') → enrich_one b' = Ok (sentiment, b').
Proof.
  intros (fields & analysis & score & -> & Hscored & Hcustom & ->)%enrich_one_Ok.
  unfold scored in Hscored. cbn [py_get mbind result_bind] in Hscored.
  unfold enrich_one, enriched. cbn [py_get mbind result_bind py_mapping].
  assert (Htext : ∀ x, <[str "customAnalysis" := x]> fields !! str "text"
                       = fields !! str "text")
    by (intros x; apply lookup_insert_ne; str_neq).
  rewrite Htext, Hscored. cbn [mbind result_bind].
  rewrite lookup_insert_eq.
  cbn [default from_option id py_mapping mbind result_bind].
  assert (Hagain : ∀ (a : gmap pystr pyval) x y,
            <[str "sentimentScore" := x]> (<[str "sentiment" := y]>
              (<[str "sentimentScore" := x]> (<[str "sentiment" := y]> a)))
            = <[str "sentimentScore" := x]> (<[str "sentiment" := y]> a)).
  { intros a x y. apply map_eq. intros key.
    destruct (decide (key = str "sentimentScore")) as [->|];
      [by rewrite !lookup_insert_eq|].
    rewrite !(lookup_insert_ne _ (str "sentimentScore")) by done.
    destruct (decide (key = str "sentiment")) as [->|].
    - by rewrite !lookup_insert_eq.
    - by rewrite !lookup_insert_ne. }
  by rewrite Hagain, insert_insert_eq.
Qed.
End MorePipeline.

(** X9. The document handed to [json.dumps] is built, nothing raising
    before, exactly on the inputs the code can walk: an object whose
    [bookmarks], if any, yields only records with a falsy or str [text] and,
    if any, a record under [customAnalysis], and whose [metadata], if any,
    is a record.  On every other input the run fails, so a run that prints
    a document was given such an input. *)
Theorem output_is_built_iff_well_formed `{UnicodeDB} (input_data : input) :
  ((∃ out, transform input_data = Ok out) ↔ well_formed input_data) ∧
  (¬ well_formed input_data → reports_failure (main input_data)) ∧
  (∀ out, stdout (main input_data) = [out] → well_formed input_data).
Proof.
  assert (Hbuilt : (∃ out, transform input_data = Ok out) ↔ well_formed input_data).
  { split.
    - intros [out Hout].
      apply transform_Ok in Hout
        as (doc & items & rs & meta & -> & Hitems & Hrs & Hmeta & _).
      exists doc, items. split; [done|]. split; [done|]. split; [|by eexists].
      apply Forall_forall. intros b Hb.
      apply list_elem_of_lookup in Hb as [i Hi].
      destruct (Forall2_lookup_l _ _ _ _ _ Hrs Hi) as (r & _ & Hr).
      apply enrich_one_Ok_iff. eauto.
    - intros (doc & items & -> & Hitems & Hall & meta & Hmeta).
      destruct (Forall_enrich_one_Forall2 items Hall) as [rs Hrs].
      rewrite (transform_of_items doc items rs meta) by done. eauto. }
  split; [done|]. split.
  - intros Hnot. destruct (transform input_data) as [out|error] eqn:Hrun.
    + destruct Hnot. apply Hbuilt. eauto.
    + by eapply raise_reports_failure.
  - intros out Hout%main_stdout. apply Hbuilt. eauto.
Qed.

(** X10. Running the script on its own output prints that output again: the
    annotations and the tally are overwritten with the same values. *)
Theorem main_is_idempotent `{UnicodeDB} (input_data : input) (out : pyval) :
  stdout (main input_data) = [out] →
  main (Document out) = {| stdout := [out]; stderr := []; exit_status := 0 |}.
Proof.
  intros (doc & items & rs & meta & -> & Hitems & Hrs & Hmeta & ->)%main_stdout%transform_Ok.
  set (printed := <[str "metadata" := _]> (<[str "bookmarks" := PList rs.*2]> doc)).
  assert (Hrs' : Forall2 (λ b r, enrich_one b = Ok r) rs.*2 rs).
  { apply Forall2_fmap_l, Forall_Forall2_diag, Forall_forall. intros [l b'] Hr.
    apply list_elem_of_lookup in Hr as [i Hi].
    destruct (Forall2_lookup_r _ _ _ _ _ Hrs Hi) as (b & _ & Hb).
    by apply enrich_one_again in Hb. }
  unfold main.
  rewrite (transform_of_items printed rs.*2 rs
             (<[str "sentimentAnalysis" := tally (counts_of rs.*1)]> meta)).
  - do 3 f_equal. subst printed. rewrite insert_insert_eq. apply map_eq. intros key.
    destruct (decide (key = str "metadata")) as [->|];
      [by rewrite !lookup_insert_eq|].
    rewrite !(lookup_insert_ne _ (str "metadata")) by done.
    destruct (decide (key = str "bookmarks")) as [->|].
    + by rewrite !lookup_insert_eq.
    + by rewrite !lookup_insert_ne.
  - unfold bookmarks_of. subst printed.
    rewrite lookup_insert_ne by str_neq. by rewrite lookup_insert_eq.
  - done.
  - subst printed. by rewrite lookup_insert_eq.
Qed.

Lemma main_is_idempotent_sample :
  stdout (@main ascii_db sample_document) = [sample_output] ∧
  @main ascii_db (Document sample_output) =
    {| stdout := [sample_output]; stderr := []; exit_status := 0 |}.
Proof.
  split; [vm_compute; reflexivity|].
  apply (@main_is_idempotent ascii_db sample_document). vm_compute. reflexivity.
Defined.

(** X11. On a successful run the printed [metadata] is a record that keeps
    every key of the input's [metadata] except [sentimentAnalysis]; without
    [metadata] in the input it holds the tally and nothing else. *)
Theorem metadata_is_extended `{UnicodeDB} (input_data : input) (out : pyval) :
  stdout (main input_data) = [out] →
  ∃ doc meta printed_meta,
    input_data = Document (PDict doc) ∧
    default (PDict ∅) (doc !! str "metadata") = PDict meta ∧
    field "metadata" out = Some (PDict printed_meta) ∧
    (∀ key, key ≠ str "sentimentAnalysis" → printed_meta !! key = meta !! key) ∧
    (doc !! str "metadata" = None → dom printed_meta = {[ str "sentimentAnalysis" ]}).
Proof.
  intros (doc & items & rs & meta & -> & Hitems & Hrs & Hmeta & ->)%main_stdout%transform_Ok.
  eexists doc, meta, _. split; [done|]. split; [done|].
  split; [unfold field; by rewrite lookup_insert_eq|]. split.
  - intros key Hkey. by rewrite lookup_insert_ne.
  - intros Hnone. rewrite Hnone in Hmeta. injection Hmeta as <-.
    rewrite dom_insert_L, dom_empty_L. set_solver.
Qed.

Lemma metadata_of_sample_document :
  stdout (@main ascii_db sample_document) = [sample_output] ∧
  field "metadata" sample_output ≫= field "exportedAt" = Some (PStr (str "today")) ∧
  ∃ doc meta printed_meta,
    sample_document = Document (PDict doc) ∧
    default (PDict ∅) (doc !! str "metadata") = PDict meta ∧
    field "metadata" sample_output = Some (PDict printed_meta) ∧
    (∀ key, key ≠ str "sentimentAnalysis" → printed_meta !! key = meta !! key) ∧
    (doc !! str "metadata" = None → dom printed_meta = {[ str "sentimentAnalysis" ]}).
Proof.
  split; [vm_compute; reflexivity|]. split; [vm_compute; reflexivity|].
  apply (@metadata_is_extended ascii_db sample_document). vm_compute. reflexivity.
Defined.

(** X12. On a successful run every printed bookmark carries, under
    [customAnalysis], a [sentiment] that is one of the three label strings
    and a float [sentimentScore] in [-1.0, 1.0]. *)
Theorem printed_annotations_are_well_formed `{UnicodeDB}
    (input_data : input) (out : pyval) :
  stdout (main input_data) = [out] →
  ∃ enriched_items,
    field "bookmarks" out = Some (PList enriched_items) ∧
    Forall well_annotated enriched_items.
Proof.
  intros (doc & items & rs & meta & -> & Hitems & Hrs & Hmeta & ->)%main_stdout%transform_Ok.
  exists rs.*2. split.
  - unfold field. rewrite lookup_insert_ne by str_neq. by rewrite lookup_insert_eq.
  - apply Forall_fmap, Forall_forall. intros [l b'] Hr.
    apply list_elem_of_lookup in Hr as [i Hi].
    destruct (Forall2_lookup_r _ _ _ _ _ Hrs Hi) as (b & _ & Hb).
    destruct (enrich_one_carries _ _ _ Hb) as (l' & score & Hscored & Hl & Hs).
    exists l', score. split; [done|]. split; [done|].
    unfold scored in Hscored. destruct (py_get b _ _) as [text|]; [|done].
    by eapply analyze_sentiment_in_unit.
Qed.

Lemma annotations_of_sample_document :
  stdout (@main ascii_db sample_document) = [sample_output] ∧
  ∃ enriched_items,
    field "bookmarks" sample_output = Some (PList enriched_items) ∧
    Forall well_annotated enriched_items.
Proof.
  split; [vm_compute; reflexivity|].
  apply (@printed_annotations_are_well_formed ascii_db sample_document).
  vm_compute. reflexivity.
Defined.

(** X13. The error reported is the one of the first bookmark that fails:
    the bookmarks before it are processed, those after it are never looked at. *)
Theorem first_failing_bookmark_is_reported `{UnicodeDB}
    (doc : gmap pystr pyval) (good rest : list pyval) (b : pyval) (error : exn) :
  bookmarks_of doc = Ok (good ++ b :: rest) →
  Forall well_formed_bookmark good →
  enrich_one b = Raise error →
  main (Document (PDict doc)) = {| stdout := []; stderr := [error]; exit_status := 1 |}.
Proof.
  intros Hitems Hgood Hb. apply main_Raise. unfold transform.
  cbn [json_loads mbind result_bind py_get]. fold (bookmarks_of doc).
  rewrite Hitems. cbn [mbind result_bind].
  by rewrite (enrich_loop_first_error good b rest [] no_counts error).
Qed.

Lemma first_failing_bookmark_example :
  (bookmarks_of fields_two_bad_bookmarks =
     Ok ([sample_bookmark_1] ++ PDict {[ str "text" := PInt 5 ]}
           :: [PDict {[ str "customAnalysis" := PInt 3 ]}]) ∧
   Forall well_formed_bookmark [sample_bookmark_1] ∧
   @enrich_one ascii_db (PDict {[ str "text" := PInt 5 ]}) = Raise AttributeError ∧
   @enrich_one ascii_db (PDict {[ str "customAnalysis" := PInt 3 ]}) = Raise TypeError) ∧
  @main ascii_db (Document (PDict fields_two_bad_bookmarks)) =
    {| stdout := []; stderr := [AttributeError]; exit_status := 1 |}.
Proof.
  assert (Hgood : Forall well_formed_bookmark [sample_bookmark_1]).
  { constructor; [|constructor]. eexists. split; [reflexivity|].
    split; [right; eexists; vm_compute; reflexivity|].
    eexists. vm_compute. reflexivity. }
  split.
  - split; [vm_compute; reflexivity|]. split; [exact Hgood|].
    split; vm_compute; reflexivity.
  - apply (@first_failing_bookmark_is_reported ascii_db fields_two_bad_bookmarks
             [sample_bookmark_1] [PDict {[ str "customAnalysis" := PInt 3 ]}]
             (PDict {[ str "text" := PInt 5 ]}) AttributeError).
    + vm_compute. reflexivity.
    + exact Hgood.
    + vm_compute. reflexivity.
Defined.

(** X14. Scoring is blind to what [str.lower] erases: two texts with the
    same lowercase form get the same (label, score), the empty text
    included. *)
Theorem same_lowercase_same_result `{UnicodeDB} (t1 t2 : pystr) :
  str_lower t1 = str_lower t2 →
  analyze_sentiment (PStr t1) = analyze_sentiment (PStr t2).
Proof.
  intros Hlower. apply same_words_same_result. unfold words_of. by rewrite Hlower.
Qed.

Lemma same_lowercase_example :
  @str_lower ascii_db (str "GOOD, but Broken") = @str_lower ascii_db (str "good, BUT broken") ∧
  @analyze_sentiment ascii_db (PStr (str "GOOD, but Broken")) =
    @analyze_sentiment ascii_db (PStr (str "good, BUT broken")).
Proof.
  split; [vm_compute; reflexivity|].
  apply (@same_lowercase_same_result ascii_db). vm_compute. reflexivity.
Defined.

(** X15. With fewer than 2^56 / 9 lexicon hits each, a text with at least as
    many positive and at most as many negative hits as another never gets a
    lower label: positive stays positive, and negative was negative. *)
Theorem label_is_monotone_in_the_counts `{UnicodeDB} (text text' : pystr) :
  positive_count text ≤ positive_count text' →
  negative_count text' ≤ negative_count text →
  9 * (positive_count text + negative_count text) < 2 ^ 56 →
  9 * (positive_count text' + negative_count text') < 2 ^ 56 →
  ∃ sentiment score sentiment' score',
    analyze_sentiment (PStr text) = Ok (sentiment, score) ∧
    analyze_sentiment (PStr text') = Ok (sentiment', score') ∧
    (sentiment = Positive → sentiment' = Positive) ∧
    (sentiment' = Negative → sentiment = Negative).
Proof.
  intros Hp Hn Hb Hb'.
  destruct (analyze_sentiment_label text Hb) as [score ->].
  destruct (analyze_sentiment_label text' Hb') as [score' ->].
  eexists _, _, _, _. split; [done|]. split; [done|].
  unfold label_of_counts.
  destruct (Z.ltb_spec (3 * negative_count text) (2 * positive_count text)),
           (Z.ltb_spec (3 * positive_count text) (2 * negative_count text)),
           (Z.ltb_spec (3 * negative_count text') (2 * positive_count text')),
           (Z.ltb_spec (3 * positive_count text') (2 * negative_count text'));
    split; intros; try done; lia.
Qed.

Lemma label_is_monotone_example :
  (@positive_count ascii_db (str "good, great, bad") ≤ @positive_count ascii_db (str "good, great, best") ∧
   @negative_count ascii_db (str "good, great, best") ≤ @negative_count ascii_db (str "good, great, bad") ∧
   9 * (@positive_count ascii_db (str "good, great, bad")
        + @negative_count ascii_db (str "good, great, bad")) < 2 ^ 56 ∧
   9 * (@positive_count ascii_db (str "good, great, best")
        + @negative_count ascii_db (str "good, great, best")) < 2 ^ 56) ∧
  ∃ sentiment score sentiment' score',
    @analyze_sentiment ascii_db (PStr (str "good, great, bad")) = Ok (sentiment, score) ∧
    @analyze_sentiment ascii_db (PStr (str "good, great, best")) = Ok (sentiment', score') ∧
    (sentiment = Positive → sentiment' = Positive) ∧
    (sentiment' = Negative → sentiment = Negative).
Proof.
  split.
  - split; [vm_compute; discriminate|]. split; [vm_compute; discriminate|].
    split; vm_compute; reflexivity.
  - apply (@label_is_monotone_in_the_counts ascii_db).
    + vm_compute. discriminate.
    + vm_compute. discriminate.
    + vm_compute. reflexivity.
    + vm_compute. reflexivity.
Defined.
